(** * Media device management of the Wire web application

    A shallow embedding of [src/script/media/MediaDevicesHandler.ts] and
    the properties its specification states about it.

    The handler keeps, for each of four device categories, a Knockout
    observable array of known devices and a Knockout observable holding
    the identifier the user wants.  Promise chains and callbacks are
    modelled by the outcome they are settled with; the event loop is a
    step function over the events the handler reacts to.  The logger has
    no influence on the handler's state and is left out. *)

From stdpp Require Import base strings list gmap.

(** ** JavaScript values *)

(** The values the handler compares: a string, or [undefined] (an
    attribute a device object lacks, a key the storage does not hold). *)
Inductive jsval : Type :=
  | JUndefined
  | JString (s : string).

#[global] Instance jsval_eq_dec : EqDecision jsval.
Proof. solve_decision. Defined.

(** [ToBoolean]: [undefined] and the empty string are falsy. *)
Definition truthy (v : jsval) : bool :=
  match v with
  | JUndefined => false
  | JString EmptyString => false
  | JString (String _ _) => true
  end.

(** [a || b] yields [a] when it is truthy and [b] otherwise. *)
Definition js_or (a b : jsval) : jsval := if truthy a then a else b.

(** [a === b] on strings and [undefined]. *)
Definition strict_eq (a b : jsval) : bool := bool_decide (a = b).

(** An [Error] object, by its [name] and [message]. *)
Record JsError : Type := mkJsError { name : string; message : string }.

#[global] Instance JsError_eq_dec : EqDecision JsError.
Proof. solve_decision. Defined.

(** ** Devices and categories *)

(** [MediaDeviceInfo] as the handler reads it: [deviceId], the attribute
    [id] reached through [(device as any).id], and [kind].  Screen sources
    are stored under the same type and carry [id] but no [deviceId]. *)
Record MediaDeviceInfo : Type := mkDevice {
  deviceId : jsval;
  id : jsval;
  kind : jsval;
  label : string
}.

#[global] Instance MediaDeviceInfo_eq_dec : EqDecision MediaDeviceInfo.
Proof. solve_decision. Defined.

(** [type DeviceTypes = 'audioInput' | 'audioOutput' | 'screenInput' | 'videoInput'] *)
Inductive DeviceTypes : Type :=
  | audioInput
  | audioOutput
  | screenInput
  | videoInput.

#[global] Instance DeviceTypes_eq_dec : EqDecision DeviceTypes.
Proof. solve_decision. Defined.

(** [Record<DeviceTypes, A>]: one value of type [A] per category. *)
Record PerType (A : Type) : Type := mkPerType {
  at_audioInput : A;
  at_audioOutput : A;
  at_screenInput : A;
  at_videoInput : A
}.
Arguments mkPerType {A} _ _ _ _.
Arguments at_audioInput {A} _.
Arguments at_audioOutput {A} _.
Arguments at_screenInput {A} _.
Arguments at_videoInput {A} _.

(** [r[deviceType]] *)
Definition by_type {A : Type} (r : PerType A) (deviceType : DeviceTypes) : A :=
  match deviceType with
  | audioInput => at_audioInput r
  | audioOutput => at_audioOutput r
  | screenInput => at_screenInput r
  | videoInput => at_videoInput r
  end.

(** [r[deviceType] = v], the other categories kept. *)
Definition with_type {A : Type} (r : PerType A) (deviceType : DeviceTypes) (v : A)
  : PerType A :=
  match deviceType with
  | audioInput => mkPerType v (at_audioOutput r) (at_screenInput r) (at_videoInput r)
  | audioOutput => mkPerType (at_audioInput r) v (at_screenInput r) (at_videoInput r)
  | screenInput => mkPerType (at_audioInput r) (at_audioOutput r) v (at_videoInput r)
  | videoInput => mkPerType (at_audioInput r) (at_audioOutput r) (at_screenInput r) v
  end.

(** [type Devices] and [type DeviceIds], the observables read. *)
Abbreviation Devices := (PerType (list MediaDeviceInfo)).
Abbreviation DeviceIds := (PerType jsval).

(** The two observable fields of the class. *)
Record MediaDevicesHandler : Type := mkHandler {
  availableDevices : Devices;
  currentDeviceId : DeviceIds
}.

(** [MediaDevicesHandler.CONFIG.DEFAULT_DEVICE] *)
Definition DEFAULT_DEVICE : PerType string :=
  {| at_audioInput := "default";
     at_audioOutput := "default";
     at_screenInput := "screen";
     at_videoInput := "default" |}.

(** ** Resolution of the available device id *)

(** The constant [isAvailable] of [getCurrentAvailableDeviceId]:
    [Array.prototype.find] yields the first device that satisfies the
    predicate, or [undefined]. *)
Definition isAvailable (devices : list MediaDeviceInfo) (currentDeviceId : jsval)
  : option MediaDeviceInfo :=
  find (fun device =>
          strict_eq (js_or (deviceId device) (id device)) currentDeviceId)
       devices.

(** The closure [getCurrentAvailableDeviceId] of the constructor.  A
    device found is an object and so truthy. *)
Definition getCurrentAvailableDeviceId (this : MediaDevicesHandler)
    (deviceType : DeviceTypes) : jsval :=
  let currentDeviceId := by_type (currentDeviceId this) deviceType in
  if Nat.eqb (length (by_type (availableDevices this) deviceType)) 0 then
    JString EmptyString
  else
    match isAvailable (by_type (availableDevices this) deviceType) currentDeviceId with
    | Some _ => currentDeviceId
    | None => JString (by_type DEFAULT_DEVICE deviceType)
    end.

(** [deviceSupport]: [!!this.availableDevices[deviceType]().length] *)
Definition deviceSupport (this : MediaDevicesHandler)
    (deviceType : DeviceTypes) : bool :=
  negb (Nat.eqb (length (by_type (availableDevices this) deviceType)) 0).

(** The identifier a device is compared by: [device.deviceId || device.id]. *)
Definition deviceIdentifier (device : MediaDeviceInfo) : jsval :=
  js_or (deviceId device) (id device).

(** ** Promises *)

(** How a promise settles.  A rejection carries an [Error] object, as
    the handlers that read [error.message] expect. *)
Inductive Settled (A : Type) : Type :=
  | Fulfilled (value : A)
  | Rejected (reason : JsError).
Arguments Fulfilled {A} _.
Arguments Rejected {A} _.

(** A promise chain that runs against the handler: from the handler it
    finds to the handler it leaves and the way the chain settles. *)
Definition Chain (A : Type) : Type :=
  MediaDevicesHandler -> MediaDevicesHandler * Settled A.

(** A promise the handler did not produce, viewed as a chain. *)
Definition settled {A : Type} (p : Settled A) : Chain A :=
  fun this => (this, p).

(** [p.catch(onRejected)]: a fulfilled promise passes through. *)
Definition catch_ {A : Type} (p : Chain A) (onRejected : JsError -> Chain A)
  : Chain A :=
  fun this =>
    match p this with
    | (this', Fulfilled value) => (this', Fulfilled value)
    | (this', Rejected reason) => onRejected reason this'
    end.

(** [p.then(onFulfilled)]: a rejected promise passes through. *)
Definition then_ {A B : Type} (p : Chain A) (onFulfilled : A -> Chain B)
  : Chain B :=
  fun this =>
    match p this with
    | (this', Fulfilled value) => onFulfilled value this'
    | (this', Rejected reason) => (this', Rejected reason)
    end.

(** [throw error] inside a promise callback. *)
Definition throw {A : Type} (error : JsError) : Chain A :=
  fun this => (this, Rejected error).

(** [return value] inside a promise callback. *)
Definition ret {A : Type} (value : A) : Chain A :=
  fun this => (this, Fulfilled value).

(** ** Refreshing the device lists *)

(** The string constants of the enum [MediaDeviceType], whose declaration
    ([./MediaDeviceType]) is not among the sources: the development is
    parametric in them. *)
Record MediaDeviceTypeT : Type := mkMediaDeviceType {
  AUDIO_INPUT : string;
  AUDIO_OUTPUT : string;
  SCREEN_INPUT : string;
  VIDEO_INPUT : string
}.

(** The values of the enum as the W3C [MediaDeviceKind] spells them, used
    to run the model on concrete inputs. *)
Definition webMediaDeviceType : MediaDeviceTypeT :=
  {| AUDIO_INPUT := "audioinput";
     AUDIO_OUTPUT := "audiooutput";
     SCREEN_INPUT := "screeninput";
     VIDEO_INPUT := "videoinput" |}.

(** Modelled from the spec: [koArrayPushAll] of [Util/util] is not among
    the sources.  The spec has a refresh store the devices of a category in
    enumeration order; the helper appends the values to the array the
    observable holds. *)
Definition koArrayPushAll (koArray valuesToPush : list MediaDeviceInfo)
  : list MediaDeviceInfo :=
  koArray ++ valuesToPush.

(** [_removeAllDevices]: [removeAll()] on three of the four arrays. *)
Definition _removeAllDevices (this : MediaDevicesHandler) : MediaDevicesHandler :=
  let devices := availableDevices this in
  let devices := with_type devices audioInput [] in
  let devices := with_type devices audioOutput [] in
  let devices := with_type devices videoInput [] in
  mkHandler devices (currentDeviceId this).

(** The three local arrays the [forEach] of [refreshMediaDevices] fills. *)
Record Sorted : Type := mkSorted {
  audioInputDevices : list MediaDeviceInfo;
  audioOutputDevices : list MediaDeviceInfo;
  videoInputDevices : list MediaDeviceInfo
}.

Section Handler.

Variable MediaDeviceType : MediaDeviceTypeT.

(** The body of the [forEach]: a [switch] on [mediaDevice.kind] whose
    cases are tried in order and compared with [===]; a kind that matches
    no case leaves the arrays as they are. *)
Definition sortDevice (acc : Sorted) (mediaDevice : MediaDeviceInfo) : Sorted :=
  if strict_eq (kind mediaDevice) (JString (AUDIO_INPUT MediaDeviceType)) then
    mkSorted (audioInputDevices acc ++ [mediaDevice])
             (audioOutputDevices acc) (videoInputDevices acc)
  else if strict_eq (kind mediaDevice) (JString (AUDIO_OUTPUT MediaDeviceType)) then
    mkSorted (audioInputDevices acc)
             (audioOutputDevices acc ++ [mediaDevice]) (videoInputDevices acc)
  else if strict_eq (kind mediaDevice) (JString (VIDEO_INPUT MediaDeviceType)) then
    mkSorted (audioInputDevices acc) (audioOutputDevices acc)
             (videoInputDevices acc ++ [mediaDevice])
  else acc.

(** [koArrayPushAll(this.availableDevices[deviceType], values)] *)
Definition pushAll (deviceType : DeviceTypes) (values : list MediaDeviceInfo)
    (this : MediaDevicesHandler) : MediaDevicesHandler :=
  mkHandler
    (with_type (availableDevices this) deviceType
       (koArrayPushAll (by_type (availableDevices this) deviceType) values))
    (currentDeviceId this).

(** The callback given to [.then] in [refreshMediaDevices].  The
    enumeration resolves with an array, which is truthy even when empty,
    or with a falsy value, [None] here. *)
Definition onEnumerated (mediaDevices : option (list MediaDeviceInfo))
  : Chain (list MediaDeviceInfo) :=
  fun this =>
    let this := _removeAllDevices this in
    match mediaDevices with
    | Some mediaDevices =>
        let sorted := fold_left sortDevice mediaDevices (mkSorted [] [] []) in
        let this := pushAll audioInput (audioInputDevices sorted) this in
        let this := pushAll audioOutput (audioOutputDevices sorted) this in
        let this := pushAll videoInput (videoInputDevices sorted) this in
        ret mediaDevices this
    | None => throw (mkJsError "Error" "No media devices found") this
    end.

(** [refreshMediaDevices], from the moment the promise of
    [navigator.mediaDevices.enumerateDevices()] settles with [enumerated]:
    [.catch] logs and throws the error again, [.then] stores the devices. *)
Definition refreshMediaDevices
    (enumerated : Settled (option (list MediaDeviceInfo)))
  : Chain (list MediaDeviceInfo) :=
  then_ (catch_ (settled enumerated) (fun error => throw error)) onEnumerated.

(** ** Screen sources *)

(** What [window.desktopCapturer.getSources] hands to its callback. *)
Record CapturerReply : Type := mkReply {
  error : option JsError;
  screenSources : list MediaDeviceInfo
}.

(** The exception of reading [getSources] from [undefined]; the message
    is the engine's. *)
Definition getSourcesOfUndefined : JsError :=
  mkJsError "TypeError" "Cannot read property 'getSources' of undefined".

(** [getScreenSources], with [window.desktopCapturer] as the host
    provides it: [None] where the page does not run in the desktop
    wrapper.  An exception in the executor of [new Promise] rejects the
    promise. *)
Definition getScreenSources (desktopCapturer : option CapturerReply)
  : Chain (list MediaDeviceInfo) :=
  fun this =>
    match desktopCapturer with
    | None => throw getSourcesOfUndefined this
    | Some reply =>
        match error reply with
        | Some error => throw error this
        | None =>
            let this :=
              mkHandler
                (with_type (availableDevices this) screenInput (screenSources reply))
                (currentDeviceId this) in
            ret (screenSources reply) this
        end
    end.

(** ** Persistence and construction *)

(** Modelled from the spec: [loadValue] of [Util/StorageUtil] is not among
    the sources.  The spec gives the store as [load(key) -> string | absent];
    an absent value is [undefined]. *)
Definition loadValue (storage : gmap string string) (key : string) : jsval :=
  match storage !! key with
  | Some value => JString value
  | None => JUndefined
  end.

(** Modelled from the spec: [storeValue] of [Util/StorageUtil] is not among
    the sources.  The spec gives the store as [store(key, value) -> void]. *)
Definition storeValue (key value : string) (storage : gmap string string)
  : gmap string string :=
  <[key := value]> storage.

(** The storage key a category is loaded from. *)
Definition storageKey (deviceType : DeviceTypes) : string :=
  match deviceType with
  | audioInput => AUDIO_INPUT MediaDeviceType
  | audioOutput => AUDIO_OUTPUT MediaDeviceType
  | screenInput => SCREEN_INPUT MediaDeviceType
  | videoInput => VIDEO_INPUT MediaDeviceType
  end.

(** The fields the constructor sets up before [_initializeMediaDevices]. *)
Definition construct (storage : gmap string string) : MediaDevicesHandler :=
  {| availableDevices :=
       {| at_audioInput := [];
          at_audioOutput := [];
          at_screenInput := [];
          at_videoInput := [] |};
     currentDeviceId :=
       {| at_audioInput := loadValue storage (AUDIO_INPUT MediaDeviceType);
          at_audioOutput := loadValue storage (AUDIO_OUTPUT MediaDeviceType);
          at_screenInput := loadValue storage (SCREEN_INPUT MediaDeviceType);
          at_videoInput := loadValue storage (VIDEO_INPUT MediaDeviceType) |} |}.

(** ** The handler in the event loop *)

(** The handler together with what its callbacks reach: the storage, the
    subscriptions set up so far, and the enumerations still awaited.  An
    awaited enumeration is numbered by the call that started it and
    remembers whether the call is the one of [_initializeMediaDevices],
    whose [.then] sets up the subscriptions. *)
Record World : Type := mkWorld {
  handler : MediaDevicesHandler;
  localStorage : gmap string string;
  subscribedToObservables : bool;
  subscribedToDevices : bool;
  inFlight : gmap nat bool;
  issued : nat
}.

(** A call of [refreshMediaDevices()]: [enumerateDevices()] is started and
    the chain waits for it. *)
Definition callRefresh (initial : bool) (w : World) : World :=
  {| handler := handler w;
     localStorage := localStorage w;
     subscribedToObservables := subscribedToObservables w;
     subscribedToDevices := subscribedToDevices w;
     inFlight := <[issued w := initial]> (inFlight w);
     issued := S (issued w) |}.

(** [_initializeMediaDevices], given [Environment.browser.supports.mediaDevices]. *)
Definition _initializeMediaDevices (supportsMediaDevices : bool) (w : World)
  : World :=
  if supportsMediaDevices then callRefresh true w else w.

(** [new MediaDevicesHandler()] *)
Definition newMediaDevicesHandler (supportsMediaDevices : bool)
    (storage : gmap string string) : World :=
  _initializeMediaDevices supportsMediaDevices
    {| handler := construct storage;
       localStorage := storage;
       subscribedToObservables := false;
       subscribedToDevices := false;
       inFlight := ∅;
       issued := 0 |}.

(** The promise of [enumerateDevices()] started by call [request] settles:
    the chain of [refreshMediaDevices] runs on the handler as it is then,
    and after the initial call, when the chain is fulfilled,
    [_subscribeToObservables] and [_subscribeToDevices] run. *)
Definition settleEnumeration (request : nat)
    (enumerated : Settled (option (list MediaDeviceInfo))) (w : World) : World :=
  match inFlight w !! request with
  | None => w
  | Some initial =>
      let '(this, result) := refreshMediaDevices enumerated (handler w) in
      let subscribe :=
        match result with
        | Fulfilled _ => initial
        | Rejected _ => false
        end in
      {| handler := this;
         localStorage := localStorage w;
         subscribedToObservables := subscribedToObservables w || subscribe;
         subscribedToDevices := subscribedToDevices w || subscribe;
         inFlight := delete request (inFlight w);
         issued := issued w |}
  end.

(** The subscriptions of [_subscribeToObservables]: the callback run when
    [currentDeviceId[deviceType]] has changed to [mediaDeviceId]. *)
Definition notifySubscribers (deviceType : DeviceTypes) (mediaDeviceId : string)
    (storage : gmap string string) : gmap string string :=
  match deviceType with
  | audioInput => storeValue (AUDIO_INPUT MediaDeviceType) mediaDeviceId storage
  | audioOutput => storeValue (AUDIO_OUTPUT MediaDeviceType) mediaDeviceId storage
  | screenInput => storage
  | videoInput => storeValue (VIDEO_INPUT MediaDeviceType) mediaDeviceId storage
  end.

(** [currentDeviceId[deviceType](mediaDeviceId)], a write to the
    observable by the code that owns the selection.  Knockout notifies the
    subscribers only when the value written differs from the one held. *)
Definition selectDevice (deviceType : DeviceTypes) (mediaDeviceId : string)
    (w : World) : World :=
  if strict_eq (by_type (currentDeviceId (handler w)) deviceType)
               (JString mediaDeviceId)
  then w
  else
    {| handler :=
         mkHandler (availableDevices (handler w))
           (with_type (currentDeviceId (handler w)) deviceType
              (JString mediaDeviceId));
       localStorage :=
         if subscribedToObservables w
         then notifySubscribers deviceType mediaDeviceId (localStorage w)
         else localStorage w;
       subscribedToObservables := subscribedToObservables w;
       subscribedToDevices := subscribedToDevices w;
       inFlight := inFlight w;
       issued := issued w |}.

(** What happens to the handler. *)
Inductive Event : Type :=
  | RefreshCalled
  | DeviceChange
  | EnumerationSettled (request : nat)
      (enumerated : Settled (option (list MediaDeviceInfo)))
  | DeviceSelected (deviceType : DeviceTypes) (mediaDeviceId : string)
  | ScreenSourcesRequested (desktopCapturer : option CapturerReply).

(** One turn of the event loop. *)
Definition step (w : World) (e : Event) : World :=
  match e with
  | RefreshCalled => callRefresh false w
  | DeviceChange =>
      (* [navigator.mediaDevices.ondevicechange], once assigned *)
      if subscribedToDevices w then callRefresh false w else w
  | EnumerationSettled request enumerated =>
      settleEnumeration request enumerated w
  | DeviceSelected deviceType mediaDeviceId =>
      selectDevice deviceType mediaDeviceId w
  | ScreenSourcesRequested desktopCapturer =>
      {| handler := fst (getScreenSources desktopCapturer (handler w));
         localStorage := localStorage w;
         subscribedToObservables := subscribedToObservables w;
         subscribedToDevices := subscribedToDevices w;
         inFlight := inFlight w;
         issued := issued w |}
  end.

(** The events of a trace, one after the other. *)
Definition run (w : World) (trace : list Event) : World :=
  fold_left step trace w.

End Handler.

(** ** The claims' own words *)

(** The match of a desired id against a device as the specification
    words it: equal to the primary identifier or equal to the secondary
    one. *)
Definition matchesEitherIdentifier (device : MediaDeviceInfo) (desired : jsval)
  : bool :=
  strict_eq (deviceId device) desired || strict_eq (id device) desired.

(** The devices of a list that report a given kind, in the order of the
    list. *)
Definition devicesOfKind (k : string) (mediaDevices : list MediaDeviceInfo)
  : list MediaDeviceInfo :=
  filter (fun device => kind device = JString k) mediaDevices.

(** ** Sample data *)

Definition mic1 : MediaDeviceInfo :=
  mkDevice (JString "mic1") JUndefined (JString "audioinput") "Microphone 1".
Definition mic2 : MediaDeviceInfo :=
  mkDevice (JString "mic2") JUndefined (JString "audioinput") "Microphone 2".
Definition speaker1 : MediaDeviceInfo :=
  mkDevice (JString "spk1") JUndefined (JString "audiooutput") "Speaker 1".
Definition camera1 : MediaDeviceInfo :=
  mkDevice (JString "cam1") JUndefined (JString "videoinput") "Camera 1".
Definition screen1 : MediaDeviceInfo :=
  mkDevice JUndefined (JString "screen:0") JUndefined "Entire screen".
(** A device that reports both identifiers, with different values. *)
Definition twoIds : MediaDeviceInfo :=
  mkDevice (JString "primary") (JString "legacy") (JString "audioinput") "Both".

(** A handler that knows the given microphones and wants [desired]. *)
Definition withMicrophones (known : list MediaDeviceInfo) (desired : jsval)
  : MediaDevicesHandler :=
  {| availableDevices := mkPerType known [] [] [];
     currentDeviceId := mkPerType desired JUndefined JUndefined JUndefined |}.

(** A handler that has refreshed and listed the screens before, and what
    the next enumeration reports: a screen source has no kind the refresh
    knows. *)
Definition knownBefore : MediaDevicesHandler :=
  {| availableDevices := mkPerType [mic1] [speaker1] [screen1] [];
     currentDeviceId := mkPerType (JString "mic1") JUndefined JUndefined JUndefined |}.
Definition enumeration : list MediaDeviceInfo := [camera1; mic2; screen1; twoIds].

(** A storage that holds a value for screenInput. *)
Definition screenStorage : gmap string string := {[ "screeninput" := "screen:7" ]}.

(** Two refreshes are called, the first by the constructor; the
    enumeration of the second is fulfilled first, with [mic2], the one of
    the first afterwards, with [mic1]. *)
Definition outOfOrder : list Event :=
  [RefreshCalled;
   EnumerationSettled 1 (Fulfilled (Some [mic2]));
   EnumerationSettled 0 (Fulfilled (Some [mic1]))].

(** An event that is not a selection for a category other than
    screenInput. *)
Definition selectsOnlyScreenInput (e : Event) : Prop :=
  match e with
  | DeviceSelected deviceType _ => deviceType = screenInput
  | _ => True
  end.

(** A session in a supporting browser: the first enumeration is fulfilled,
    then a screen source and a microphone are selected. *)
Definition selections : list Event :=
  [EnumerationSettled 0 (Fulfilled (Some [mic1; mic2]));
   DeviceSelected screenInput "screen:0";
   DeviceSelected audioInput "mic2"].

(** The same session without the selection of the microphone. *)
Definition screenSelections : list Event :=
  [EnumerationSettled 0 (Fulfilled (Some [mic1; mic2]));
   DeviceSelected screenInput "screen:0";
   DeviceSelected screenInput "screen:1"].

(** ** Events and worlds, classified *)

(** An event that writes no desired id. *)
Definition selectsNothing (e : Event) : Prop :=
  match e with
  | DeviceSelected _ _ => False
  | _ => True
  end.

(** A world in which the subscriptions are not set up and cannot come to
    be: no awaited enumeration is the one of [_initializeMediaDevices]. *)
Definition unsubscribedForGood (w : World) : Prop :=
  subscribedToObservables w = false /\
  subscribedToDevices w = false /\
  forall request, inFlight w !! request <> Some true.

(** An enumeration that does not let [refreshMediaDevices] be fulfilled:
    it is rejected, or fulfilled with a falsy value. *)
Definition failsToEnumerate (enumerated : Settled (option (list MediaDeviceInfo)))
  : Prop :=
  match enumerated with
  | Fulfilled (Some _) => False
  | Fulfilled None => True
  | Rejected _ => True
  end.

(** An event other than the settling of the constructor's enumeration. *)
Definition notFirstSettlement (e : Event) : Prop :=
  match e with
  | EnumerationSettled 0 _ => False
  | _ => True
  end.

(** An event that, if it is a selection, selects [mediaDeviceId] for
    [deviceType] and nothing else. *)
Definition reselects (deviceType : DeviceTypes) (mediaDeviceId : string)
    (e : Event) : Prop :=
  match e with
  | DeviceSelected deviceType' mediaDeviceId' =>
      deviceType' = deviceType /\ mediaDeviceId' = mediaDeviceId
  | _ => True
  end.

(** What follows an early selection of [mic2]: the first enumeration is
    fulfilled, and the same microphone is selected once more. *)
Definition reselection : list Event :=
  [RefreshCalled;
   EnumerationSettled 0 (Fulfilled (Some [mic1; mic2]));
   DeviceSelected audioInput "mic2";
   DeviceChange].

(** A microphone is unplugged and plugged in again. *)
Definition unplugged : list MediaDeviceInfo := [mic2; camera1].
Definition replugged : list MediaDeviceInfo := [mic2; mic1; camera1].

(** * Downloading an image asset

    [src/script/entity/message/MediumImage.ts] *)

Module MediumImage.

(** How a call that is not a promise completes. *)
Inductive Completion (A : Type) : Type :=
  | Returns (value : A)
  | Throws (exception : JsError).
Arguments Returns {A} _.
Arguments Throws {A} _.

(** What [logger.error(message, error)] leaves in the log. *)
Record LogEntry : Type := mkLogEntry {
  logged : string;
  cause : JsError
}.

(** The exception of reading [load] from [undefined]; the message is the
    engine's. *)
Definition loadOfUndefined : JsError :=
  mkJsError "TypeError" "Cannot read property 'load' of undefined".

Section Download.

(** The binary data of an asset. *)
Variable Blob : Type.

(** [downloadBlob] of [Util/util], which is not among the sources: it
    returns the number of a timer, or throws. *)
Variable downloadBlob : Blob -> option string -> Completion nat.

(** What the [try] block of [download] comes to: the value it returns, or
    the exception that reaches [catch].  [resource] is what the observable
    [this.resource] holds, [None] as long as nothing was written to it,
    and otherwise the way the promise of [load()] settles, with a blob or
    with a falsy value. *)
Definition tryDownload (resource : option (Settled (option Blob)))
    (filename : option string) : Completion nat :=
  match resource with
  | None => Throws loadOfUndefined
  | Some (Rejected error) => Throws error
  | Some (Fulfilled None) => Throws (mkJsError "Error" "No blob received.")
  | Some (Fulfilled (Some blob)) => downloadBlob blob filename
  end.

(** [download]: the log it leaves and the way its promise settles;
    [logger.error] returns nothing, [None] here. *)
Definition download (resource : option (Settled (option Blob)))
    (filename : option string) (log : list LogEntry)
  : list LogEntry * Settled (option nat) :=
  match tryDownload resource filename with
  | Returns timer => (log, Fulfilled (Some timer))
  | Throws error =>
      (log ++ [mkLogEntry "Failed to download image" error], Fulfilled None)
  end.

End Download.

End MediumImage.

(** * Escaping for regular expressions

    [escapeRegex] of [z.util.SanitizationUtil].  A string is the sequence
    of its code units; the characters of the class are all ASCII, so a
    unit beyond ASCII is never one of them and passes unchanged. *)

Module SanitizationUtil.

Import Stdlib.Strings.Ascii.

(** The character class [[.*+?^${}()|[\]\\]] *)
Definition special : list ascii :=
  ["."; "*"; "+"; "?"; "^"; "$"; "{"; "}"; "("; ")"; "|"; "["; "]"; "\"]%char.

Definition isSpecial (c : ascii) : bool := existsb (Ascii.eqb c) special.

(** [string.replace(/[.*+?^${}()|[\]\\]/g, '\\$&')]: every character of
    the class is replaced by a backslash and itself. *)
Fixpoint escapeRegex (s : string) : string :=
  match s with
  | EmptyString => EmptyString
  | String c rest =>
      if isSpecial c
      then String "\" (String c (escapeRegex rest))
      else String c (escapeRegex rest)
  end.

(** The number of characters of the class in a string. *)
Fixpoint countSpecial (s : string) : nat :=
  match s with
  | EmptyString => 0
  | String c rest => (if isSpecial c then 1 else 0) + countSpecial rest
  end.

(** A string read as the source of a regular expression in which no
    character of the class stands for itself: a backslash is followed by
    a character of the class, and no character of the class occurs
    elsewhere. *)
Fixpoint onlyLiterals (s : string) : bool :=
  match s with
  | EmptyString => true
  | String c rest =>
      if Ascii.eqb c "\" then
        match rest with
        | EmptyString => false
        | String c' rest' => isSpecial c' && onlyLiterals rest'
        end
      else negb (isSpecial c) && onlyLiterals rest
  end.

End SanitizationUtil.

(** * Properties *)

(** ** Auxiliary facts *)

Lemma by_type_with_type_eq {A : Type} (r : PerType A) (t : DeviceTypes) (v : A) :
  by_type (with_type r t v) t = v.
Proof. destruct t; reflexivity. Qed.

Lemma by_type_with_type_ne {A : Type} (r : PerType A) (t u : DeviceTypes) (v : A) :
  t <> u -> by_type (with_type r t v) u = by_type r u.
Proof. destruct t, u; intros H; try reflexivity; contradiction. Qed.

Lemma strict_eq_true (a b : jsval) : strict_eq a b = true <-> a = b.
Proof. unfold strict_eq. apply bool_decide_eq_true. Qed.

Lemma strict_eq_false (a b : jsval) : strict_eq a b = false <-> a <> b.
Proof. unfold strict_eq. apply bool_decide_eq_false. Qed.

Lemma find_is_Some {A : Type} (p : A -> bool) (l : list A) :
  is_Some (find p l) <-> exists x, x ∈ l /\ p x = true.
Proof.
  induction l as [|a l IH]; simpl.
  - split; [intros [x Hx]; discriminate | intros (x & Hx & _); inversion Hx].
  - destruct (p a) eqn:Hpa.
    + split; [intros _; exists a; split; [left | exact Hpa] | intros _; eauto].
    + rewrite IH. split.
      * intros (x & Hx & Hp). exists x. split; [right; exact Hx | exact Hp].
      * intros (x & Hx & Hp). apply elem_of_cons in Hx as [-> | Hx].
        -- congruence.
        -- eauto.
Qed.

Lemma isAvailable_is_Some (devices : list MediaDeviceInfo) (desired : jsval) :
  is_Some (isAvailable devices desired) <->
  desired ∈ deviceIdentifier <$> devices.
Proof.
  unfold isAvailable. rewrite find_is_Some, list_elem_of_fmap.
  split.
  - intros (d & Hd & Heq). apply strict_eq_true in Heq. exists d. split; [|exact Hd].
    symmetry. exact Heq.
  - intros (d & Heq & Hd). exists d. split; [exact Hd|].
    apply strict_eq_true. symmetry. exact Heq.
Qed.

Lemma length_eqb_0 {A : Type} (l : list A) :
  Nat.eqb (length l) 0 = true <-> l = [].
Proof. destruct l; simpl; split; intros H; try reflexivity; discriminate. Qed.

(** ** Resolution *)

(** C1. For every category and every desired id, the resolved id is the
    empty string when the category knows no device; otherwise the desired
    id when some known device is identified by it; otherwise the default
    of the category, which is 'screen' for screenInput and 'default' for
    the three others. *)
Theorem getCurrentAvailableDeviceId_resolves
    (this : MediaDevicesHandler) (deviceType : DeviceTypes) :
  let known := by_type (availableDevices this) deviceType in
  let desired := by_type (currentDeviceId this) deviceType in
  (known = [] ->
     getCurrentAvailableDeviceId this deviceType = JString EmptyString) /\
  (known <> [] -> desired ∈ deviceIdentifier <$> known ->
     getCurrentAvailableDeviceId this deviceType = desired) /\
  (known <> [] -> desired ∉ deviceIdentifier <$> known ->
     getCurrentAvailableDeviceId this deviceType
     = JString (by_type DEFAULT_DEVICE deviceType)) /\
  by_type DEFAULT_DEVICE deviceType
  = match deviceType with
    | screenInput => "screen"
    | audioInput | audioOutput | videoInput => "default"
    end.
Proof.
  intros known desired. unfold getCurrentAvailableDeviceId.
  fold known. fold desired.
  split; [|split; [|split]].
  - intros Hempty. apply length_eqb_0 in Hempty. rewrite Hempty. reflexivity.
  - intros Hne Hin.
    destruct (Nat.eqb (length known) 0) eqn:Hlen.
    + apply length_eqb_0 in Hlen. contradiction.
    + apply isAvailable_is_Some in Hin. destruct Hin as [d Hd].
      rewrite Hd. reflexivity.
  - intros Hne Hnotin.
    destruct (Nat.eqb (length known) 0) eqn:Hlen.
    + apply length_eqb_0 in Hlen. contradiction.
    + destruct (isAvailable known desired) as [d|] eqn:Hfind; [|reflexivity].
      exfalso. apply Hnotin. apply isAvailable_is_Some. eauto.
  - destruct deviceType; reflexivity.
Qed.

(** C5, as the code has it. A device satisfies the search for the desired
    id exactly when the desired id equals the one identifier the device
    is compared by: its primary identifier [deviceId] when that is neither
    missing nor empty, and its secondary attribute [id] only otherwise. *)
Theorem isAvailable_compares_one_identifier
    (devices : list MediaDeviceInfo) (desired : jsval) :
  is_Some (isAvailable devices desired) <->
  exists device, device ∈ devices /\
    ((truthy (deviceId device) = true /\ deviceId device = desired) \/
     (truthy (deviceId device) = false /\ id device = desired)).
Proof.
  unfold isAvailable. rewrite find_is_Some.
  split; intros (d & Hd & H); exists d; (split; [exact Hd|]).
  - apply strict_eq_true in H. unfold js_or in H.
    destruct (truthy (deviceId d)); [left | right]; split; auto.
  - apply strict_eq_true. unfold js_or.
    destruct H as [[Ht H] | [Ht H]]; rewrite Ht; exact H.
Qed.

(** C5, refuted as stated. The desired id equals the secondary identifier
    of the only known device, whose primary identifier is another string:
    the device is not found and the category resolves to its default. *)
Lemma secondary_identifier_not_checked :
  matchesEitherIdentifier twoIds (JString "legacy") = true /\
  isAvailable [twoIds] (JString "legacy") = None /\
  getCurrentAvailableDeviceId (withMicrophones [twoIds] (JString "legacy")) audioInput
  = JString "default".
Proof. repeat split. Qed.

Lemma getCurrentAvailableDeviceId_resolves_witness :
  getCurrentAvailableDeviceId (withMicrophones [mic1] (JString "mic1")) audioInput
  = JString "mic1" /\
  getCurrentAvailableDeviceId (withMicrophones [mic1] (JString "mic2")) audioInput
  = JString "default" /\
  getCurrentAvailableDeviceId (withMicrophones [] (JString "mic1")) audioInput
  = JString EmptyString.
Proof.
  split; [|split].
  - apply (proj1 (proj2 (getCurrentAvailableDeviceId_resolves
                           (withMicrophones [mic1] (JString "mic1")) audioInput))).
    + simpl. discriminate.
    + simpl. apply list_elem_of_singleton. reflexivity.
  - apply (proj1 (proj2 (proj2 (getCurrentAvailableDeviceId_resolves
                           (withMicrophones [mic1] (JString "mic2")) audioInput)))).
    + simpl. discriminate.
    + simpl. intros H. apply list_elem_of_singleton in H. discriminate H.
  - apply (proj1 (getCurrentAvailableDeviceId_resolves
                    (withMicrophones [] (JString "mic1")) audioInput)).
    reflexivity.
Defined.

(** ** Refresh *)

Lemma devicesOfKind_cons_eq (k : string) (d : MediaDeviceInfo)
    (l : list MediaDeviceInfo) :
  kind d = JString k -> devicesOfKind k (d :: l) = d :: devicesOfKind k l.
Proof. intros H. unfold devicesOfKind. rewrite filter_cons_True; auto. Qed.

Lemma devicesOfKind_cons_ne (k : string) (d : MediaDeviceInfo)
    (l : list MediaDeviceInfo) :
  kind d <> JString k -> devicesOfKind k (d :: l) = devicesOfKind k l.
Proof. intros H. unfold devicesOfKind. rewrite filter_cons_False; auto. Qed.

(** The [forEach] appends to each local array the devices of its kind, as
    long as the three kinds told apart by the [switch] are different
    strings. *)
Lemma sortDevice_fold (MT : MediaDeviceTypeT) (mediaDevices : list MediaDeviceInfo) :
  AUDIO_INPUT MT <> AUDIO_OUTPUT MT ->
  AUDIO_INPUT MT <> VIDEO_INPUT MT ->
  AUDIO_OUTPUT MT <> VIDEO_INPUT MT ->
  forall acc : Sorted,
    fold_left (sortDevice MT) mediaDevices acc
    = mkSorted
        (audioInputDevices acc ++ devicesOfKind (AUDIO_INPUT MT) mediaDevices)
        (audioOutputDevices acc ++ devicesOfKind (AUDIO_OUTPUT MT) mediaDevices)
        (videoInputDevices acc ++ devicesOfKind (VIDEO_INPUT MT) mediaDevices).
Proof.
  intros Hio Hiv Hov.
  induction mediaDevices as [|d l IH]; intros acc.
  - simpl. unfold devicesOfKind. rewrite !filter_nil, !app_nil_r.
    destruct acc; reflexivity.
  - simpl. rewrite IH. unfold sortDevice.
    destruct (strict_eq (kind d) (JString (AUDIO_INPUT MT))) eqn:Hi.
    { apply strict_eq_true in Hi. simpl.
      rewrite (devicesOfKind_cons_eq (AUDIO_INPUT MT)) by exact Hi.
      rewrite !devicesOfKind_cons_ne by (rewrite Hi; congruence).
      rewrite <- app_assoc. reflexivity. }
    apply strict_eq_false in Hi.
    destruct (strict_eq (kind d) (JString (AUDIO_OUTPUT MT))) eqn:Ho.
    { apply strict_eq_true in Ho. simpl.
      rewrite (devicesOfKind_cons_eq (AUDIO_OUTPUT MT)) by exact Ho.
      rewrite !devicesOfKind_cons_ne by (rewrite Ho; congruence).
      rewrite <- app_assoc. reflexivity. }
    apply strict_eq_false in Ho.
    destruct (strict_eq (kind d) (JString (VIDEO_INPUT MT))) eqn:Hv.
    { apply strict_eq_true in Hv. simpl.
      rewrite (devicesOfKind_cons_eq (VIDEO_INPUT MT)) by exact Hv.
      rewrite !devicesOfKind_cons_ne by (rewrite Hv; congruence).
      rewrite <- app_assoc. reflexivity. }
    apply strict_eq_false in Hv.
    rewrite !devicesOfKind_cons_ne by assumption. reflexivity.
Qed.

(** The handler a fulfilled enumeration leaves behind. *)
Lemma refreshMediaDevices_fulfilled (MT : MediaDeviceTypeT)
    (this : MediaDevicesHandler) (mediaDevices : list MediaDeviceInfo) :
  let sorted := fold_left (sortDevice MT) mediaDevices (mkSorted [] [] []) in
  refreshMediaDevices MT (Fulfilled (Some mediaDevices)) this
  = ({| availableDevices :=
          {| at_audioInput := audioInputDevices sorted;
             at_audioOutput := audioOutputDevices sorted;
             at_screenInput := at_screenInput (availableDevices this);
             at_videoInput := videoInputDevices sorted |};
        currentDeviceId := currentDeviceId this |},
     Fulfilled mediaDevices).
Proof. reflexivity. Qed.

(** C2. After a refresh whose enumeration is fulfilled with the list
    [mediaDevices], the lists stored for audioInput, audioOutput and
    videoInput are exactly the devices of [mediaDevices] of the respective
    kind, in the order of the enumeration, whatever was stored before; the
    refresh is fulfilled with [mediaDevices].  The three kinds are taken
    to be different strings. *)
Theorem refreshMediaDevices_replaces (MT : MediaDeviceTypeT)
    (this : MediaDevicesHandler) (mediaDevices : list MediaDeviceInfo) :
  AUDIO_INPUT MT <> AUDIO_OUTPUT MT ->
  AUDIO_INPUT MT <> VIDEO_INPUT MT ->
  AUDIO_OUTPUT MT <> VIDEO_INPUT MT ->
  let after := refreshMediaDevices MT (Fulfilled (Some mediaDevices)) this in
  snd after = Fulfilled mediaDevices /\
  by_type (availableDevices (fst after)) audioInput
  = devicesOfKind (AUDIO_INPUT MT) mediaDevices /\
  by_type (availableDevices (fst after)) audioOutput
  = devicesOfKind (AUDIO_OUTPUT MT) mediaDevices /\
  by_type (availableDevices (fst after)) videoInput
  = devicesOfKind (VIDEO_INPUT MT) mediaDevices.
Proof.
  intros Hio Hiv Hov after. subst after.
  rewrite refreshMediaDevices_fulfilled.
  rewrite (sortDevice_fold MT mediaDevices Hio Hiv Hov). simpl.
  repeat split.
Qed.

Lemma refreshMediaDevices_replaces_witness :
  snd (refreshMediaDevices webMediaDeviceType (Fulfilled (Some enumeration))
         knownBefore)
  = Fulfilled enumeration /\
  by_type (availableDevices
             (fst (refreshMediaDevices webMediaDeviceType
                     (Fulfilled (Some enumeration)) knownBefore))) audioInput
  = devicesOfKind "audioinput" enumeration /\
  by_type (availableDevices
             (fst (refreshMediaDevices webMediaDeviceType
                     (Fulfilled (Some enumeration)) knownBefore))) audioOutput
  = devicesOfKind "audiooutput" enumeration /\
  by_type (availableDevices
             (fst (refreshMediaDevices webMediaDeviceType
                     (Fulfilled (Some enumeration)) knownBefore))) videoInput
  = devicesOfKind "videoinput" enumeration.
Proof.
  apply (refreshMediaDevices_replaces webMediaDeviceType knownBefore enumeration);
    simpl; discriminate.
Defined.

(** The run of the model behind the statement above. *)
Example refresh_replaces_run :
  availableDevices
    (fst (refreshMediaDevices webMediaDeviceType (Fulfilled (Some enumeration))
            knownBefore))
  = mkPerType [mic2; twoIds] [] [screen1] [camera1].
Proof. reflexivity. Qed.

(** C4. When the enumeration is rejected, the refresh leaves the handler,
    and with it the device list of every category, as it was, and is
    rejected with the error of the enumeration. *)
Theorem refreshMediaDevices_rejected (MT : MediaDeviceTypeT)
    (this : MediaDevicesHandler) (error : JsError) :
  refreshMediaDevices MT (Rejected error) this = (this, Rejected error).
Proof. reflexivity. Qed.

(** C9. When the enumeration is fulfilled with a falsy value, the refresh
    empties the lists of audioInput, audioOutput and videoInput, keeps the
    one of screenInput and the desired ids, and is rejected with the error
    'No media devices found'; the lists stored before are lost, which the
    rejected enumeration does not do. *)
Theorem refreshMediaDevices_no_list (MT : MediaDeviceTypeT)
    (this : MediaDevicesHandler) :
  refreshMediaDevices MT (Fulfilled None) this
  = ({| availableDevices :=
          {| at_audioInput := [];
             at_audioOutput := [];
             at_screenInput := at_screenInput (availableDevices this);
             at_videoInput := [] |};
        currentDeviceId := currentDeviceId this |},
     Rejected (mkJsError "Error" "No media devices found")) /\
  fst (refreshMediaDevices MT (Fulfilled None) this) = _removeAllDevices this /\
  (forall error, fst (refreshMediaDevices MT (Rejected error) this) = this) /\
  fst (refreshMediaDevices MT (Fulfilled None) (withMicrophones [mic1] JUndefined))
  <> withMicrophones [mic1] JUndefined.
Proof.
  split; [reflexivity|]. split; [reflexivity|]. split; [reflexivity|].
  discriminate.
Qed.

(** C8. A refresh never changes the list of screenInput, whatever the
    enumeration settles with; no event other than a request for the
    screen sources changes it; and a request whose capturer reports
    sources stores them there. *)
Theorem screenInput_written_by_getScreenSources_only (MT : MediaDeviceTypeT) :
  (forall this enumerated,
     by_type (availableDevices (fst (refreshMediaDevices MT enumerated this)))
       screenInput
     = by_type (availableDevices this) screenInput) /\
  (forall w e,
     (forall desktopCapturer, e <> ScreenSourcesRequested desktopCapturer) ->
     by_type (availableDevices (handler (step MT w e))) screenInput
     = by_type (availableDevices (handler w)) screenInput) /\
  (forall this sources,
     by_type (availableDevices
                (fst (getScreenSources (Some (mkReply None sources)) this)))
       screenInput
     = sources).
Proof.
  assert (Hrefresh : forall this enumerated,
     by_type (availableDevices (fst (refreshMediaDevices MT enumerated this)))
       screenInput
     = by_type (availableDevices this) screenInput).
  { intros this [[l|]|err]; reflexivity. }
  split; [exact Hrefresh|]. split.
  - intros w e Hnot. destruct e as [| |request enumerated|deviceType v|cap]; simpl.
    + reflexivity.
    + destruct (subscribedToDevices w); reflexivity.
    + unfold settleEnumeration. destruct (inFlight w !! request); [|reflexivity].
      specialize (Hrefresh (handler w) enumerated).
      destruct (refreshMediaDevices MT enumerated (handler w)) as [this result].
      exact Hrefresh.
    + unfold selectDevice. destruct (strict_eq _ _); reflexivity.
    + exfalso. apply (Hnot cap). reflexivity.
  - reflexivity.
Qed.

Lemma screenInput_written_by_getScreenSources_only_witness :
  by_type (availableDevices
             (handler (step webMediaDeviceType
                         (mkWorld (withMicrophones [mic1] JUndefined) ∅ true true ∅ 0)
                         (DeviceSelected screenInput "screen:0"))))
    screenInput
  = [].
Proof.
  apply (proj1 (proj2 (screenInput_written_by_getScreenSources_only
                         webMediaDeviceType))
           (mkWorld (withMicrophones [mic1] JUndefined) ∅ true true ∅ 0)
           (DeviceSelected screenInput "screen:0")).
  intros desktopCapturer. discriminate.
Defined.

(** ** Refreshes that overlap *)

(** An enumeration that is awaited is applied when it settles, whichever
    call started it and whatever else has been called since. *)
Lemma settleEnumeration_awaited (MT : MediaDeviceTypeT) (request : nat)
    (enumerated : Settled (option (list MediaDeviceInfo))) (w : World)
    (initial : bool) :
  inFlight w !! request = Some initial ->
  handler (settleEnumeration MT request enumerated w)
  = fst (refreshMediaDevices MT enumerated (handler w)) /\
  inFlight (settleEnumeration MT request enumerated w)
  = delete request (inFlight w).
Proof.
  intros H. unfold settleEnumeration. rewrite H.
  destruct (refreshMediaDevices MT enumerated (handler w)). split; reflexivity.
Qed.

(** C3, as the code has it. Two refreshes are called one after the other;
    the enumeration of the second is fulfilled first, the one of the first
    afterwards.  Neither result is discarded.  When the result of the
    second refresh arrives it replaces the lists: the handler is the one a
    refresh with that result leaves.  When the result of the first refresh
    arrives afterwards it replaces the lists in turn: the handler is the
    one a refresh with the first result leaves on top of that, and the
    lists left at the end are those of the result that arrived last, the
    one of the first refresh.  No enumeration is awaited any more under
    either number. *)
Theorem last_arrival_wins (MT : MediaDeviceTypeT) (w : World)
    (first second : list MediaDeviceInfo) :
  handler
    (run MT w
       [RefreshCalled;
        RefreshCalled;
        EnumerationSettled (S (issued w)) (Fulfilled (Some second))])
  = fst (refreshMediaDevices MT (Fulfilled (Some second)) (handler w)) /\
  handler
    (run MT w
       [RefreshCalled;
        RefreshCalled;
        EnumerationSettled (S (issued w)) (Fulfilled (Some second));
        EnumerationSettled (issued w) (Fulfilled (Some first))])
  = fst (refreshMediaDevices MT (Fulfilled (Some first))
           (fst (refreshMediaDevices MT (Fulfilled (Some second)) (handler w)))) /\
  availableDevices
    (handler
       (run MT w
          [RefreshCalled;
           RefreshCalled;
           EnumerationSettled (S (issued w)) (Fulfilled (Some second));
           EnumerationSettled (issued w) (Fulfilled (Some first))]))
  = availableDevices
      (fst (refreshMediaDevices MT (Fulfilled (Some first)) (handler w))) /\
  inFlight
    (run MT w
       [RefreshCalled;
        RefreshCalled;
        EnumerationSettled (S (issued w)) (Fulfilled (Some second));
        EnumerationSettled (issued w) (Fulfilled (Some first))])
    !! issued w = None /\
  inFlight
    (run MT w
       [RefreshCalled;
        RefreshCalled;
        EnumerationSettled (S (issued w)) (Fulfilled (Some second));
        EnumerationSettled (issued w) (Fulfilled (Some first))])
    !! S (issued w) = None.
Proof.
  unfold run. cbn [fold_left step].
  set (w2 := callRefresh false (callRefresh false w)).
  assert (Hh2 : handler w2 = handler w) by reflexivity.
  assert (H2 : inFlight w2 !! S (issued w) = Some false).
  { subst w2. simpl. apply lookup_insert_eq. }
  destruct (settleEnumeration_awaited MT (S (issued w))
              (Fulfilled (Some second)) w2 false H2) as [Hh3 Hf3].
  set (w3 := settleEnumeration MT (S (issued w)) (Fulfilled (Some second)) w2) in *.
  assert (H3 : inFlight w3 !! issued w = Some false).
  { rewrite Hf3. subst w2. simpl.
    rewrite lookup_delete_ne by lia.
    rewrite lookup_insert_ne by lia.
    apply lookup_insert_eq. }
  destruct (settleEnumeration_awaited MT (issued w)
              (Fulfilled (Some first)) w3 false H3) as [Hh4 Hf4].
  rewrite Hh4, Hf4, Hh3, Hf3, Hh2.
  split; [reflexivity|]. split; [reflexivity|].
  split; [rewrite !refreshMediaDevices_fulfilled; reflexivity|].
  split.
  - apply lookup_delete_eq.
  - rewrite lookup_delete_ne by lia. apply lookup_delete_eq.
Qed.

(** C3, refuted as stated. The constructor calls the first refresh and a
    caller the second; the second result, [mic2], arrives before the
    first, [mic1]: the list of audioInput ends as [mic1], not as the
    microphones of the second result. *)
Lemma older_result_overwrites_newer :
  by_type
    (availableDevices
       (handler (run webMediaDeviceType
                   (newMediaDevicesHandler webMediaDeviceType true ∅)
                   outOfOrder)))
    audioInput
  = [mic1] /\
  by_type
    (availableDevices
       (handler (run webMediaDeviceType
                   (newMediaDevicesHandler webMediaDeviceType true ∅)
                   outOfOrder)))
    audioInput
  <> devicesOfKind "audioinput" [mic2].
Proof. split; [reflexivity | discriminate]. Qed.

(** ** Screen sources *)

(** C6, as the code has it. Without the capturer the request is rejected,
    not fulfilled with an empty list, and the error is the [TypeError] of
    reading a property of [undefined]; whenever the request is rejected,
    the handler, and so its list of screenInput, is left as it was. *)
Theorem getScreenSources_failures (this : MediaDevicesHandler) :
  (exists error,
     getScreenSources None this = (this, Rejected error) /\
     name error = "TypeError") /\
  (forall desktopCapturer error,
     snd (getScreenSources desktopCapturer this) = Rejected error ->
     fst (getScreenSources desktopCapturer this) = this).
Proof.
  split.
  - exists getSourcesOfUndefined. split; reflexivity.
  - intros [[[err|] sources]|] e; simpl; intros H; try reflexivity.
    discriminate H.
Qed.

Lemma getScreenSources_failures_witness :
  fst (getScreenSources
         (Some (mkReply (Some (mkJsError "Error" "Failed to get sources.")) []))
         (withMicrophones [mic1] JUndefined))
  = withMicrophones [mic1] JUndefined.
Proof.
  apply (proj2 (getScreenSources_failures (withMicrophones [mic1] JUndefined))
           (Some (mkReply (Some (mkJsError "Error" "Failed to get sources.")) []))
           (mkJsError "Error" "Failed to get sources.")).
  reflexivity.
Defined.

(** C6, refuted as stated. Without the capturer the error the request is
    rejected with is not named CapabilityUnavailable. *)
Lemma no_CapabilityUnavailable_error :
  snd (getScreenSources None (withMicrophones [] JUndefined))
  = Rejected getSourcesOfUndefined /\
  name getSourcesOfUndefined <> "CapabilityUnavailable".
Proof. split; [reflexivity | discriminate]. Qed.

(** ** Construction and persistence *)

(** C7, as the code has it. The constructor gives every category the
    value [loadValue] returns for the key of the category, unchanged: the
    stored string when there is one, and [undefined], not the empty
    string, when the storage holds nothing under the key. *)
Theorem construct_loads_desired_ids (MT : MediaDeviceTypeT)
    (storage : gmap string string) (deviceType : DeviceTypes) :
  by_type (currentDeviceId (construct MT storage)) deviceType
  = loadValue storage (storageKey MT deviceType) /\
  (storage !! storageKey MT deviceType = None ->
   by_type (currentDeviceId (construct MT storage)) deviceType = JUndefined) /\
  (forall value, storage !! storageKey MT deviceType = Some value ->
   by_type (currentDeviceId (construct MT storage)) deviceType = JString value).
Proof.
  assert (H : by_type (currentDeviceId (construct MT storage)) deviceType
              = loadValue storage (storageKey MT deviceType)).
  { destruct deviceType; reflexivity. }
  split; [exact H|]. rewrite H. unfold loadValue.
  split; [intros ->; reflexivity | intros value ->; reflexivity].
Qed.

Lemma construct_loads_desired_ids_witness :
  by_type (currentDeviceId
             (construct webMediaDeviceType {[ "videoinput" := "cam1" ]}))
    audioInput
  = JUndefined /\
  by_type (currentDeviceId
             (construct webMediaDeviceType {[ "videoinput" := "cam1" ]}))
    videoInput
  = JString "cam1".
Proof.
  split.
  - apply (proj1 (proj2 (construct_loads_desired_ids webMediaDeviceType
                           {[ "videoinput" := "cam1" ]} audioInput))).
    reflexivity.
  - apply (proj2 (proj2 (construct_loads_desired_ids webMediaDeviceType
                           {[ "videoinput" := "cam1" ]} videoInput))).
    reflexivity.
Defined.

(** C7, refuted as stated. With nothing stored, the desired id of
    audioInput after construction is [undefined], which is not the empty
    string. *)
Lemma missing_value_is_undefined :
  by_type (currentDeviceId (construct webMediaDeviceType ∅)) audioInput
  = JUndefined /\
  by_type (currentDeviceId (construct webMediaDeviceType ∅)) audioInput
  <> JString EmptyString.
Proof. split; [reflexivity | discriminate]. Qed.

Lemma step_keeps_localStorage (MT : MediaDeviceTypeT) (w : World) (e : Event) :
  selectsOnlyScreenInput e -> localStorage (step MT w e) = localStorage w.
Proof.
  destruct e as [| |request enumerated|deviceType v|cap]; simpl; intros H.
  - reflexivity.
  - destruct (subscribedToDevices w); reflexivity.
  - unfold settleEnumeration. destruct (inFlight w !! request); [|reflexivity].
    destruct (refreshMediaDevices MT enumerated (handler w)). reflexivity.
  - subst deviceType. unfold selectDevice.
    destruct (strict_eq _ _); [reflexivity|]. simpl.
    destruct (subscribedToObservables w); reflexivity.
  - reflexivity.
Qed.

Lemma run_keeps_localStorage (MT : MediaDeviceTypeT) (trace : list Event) :
  Forall selectsOnlyScreenInput trace ->
  forall w, localStorage (run MT w trace) = localStorage w.
Proof.
  induction 1 as [|e trace He _ IH]; intros w; [reflexivity|].
  unfold run in *. simpl. rewrite IH. apply step_keeps_localStorage, He.
Qed.

(** C10. The desired id of screenInput is read from the storage at
    construction, and no selection for screenInput ever reaches the
    storage: after any course of events in which screenInput is the only
    category selected for, the storage is the one the handler was
    constructed on, and so is the value under the key of screenInput. *)
Theorem screenInput_selection_not_persisted (MT : MediaDeviceTypeT)
    (supportsMediaDevices : bool) (storage : gmap string string)
    (trace : list Event) :
  Forall selectsOnlyScreenInput trace ->
  let w := newMediaDevicesHandler MT supportsMediaDevices storage in
  by_type (currentDeviceId (handler w)) screenInput
  = loadValue storage (SCREEN_INPUT MT) /\
  localStorage (run MT w trace) = storage /\
  loadValue (localStorage (run MT w trace)) (SCREEN_INPUT MT)
  = loadValue storage (SCREEN_INPUT MT).
Proof.
  intros Htrace w.
  assert (Hstore : localStorage (run MT w trace) = storage).
  { rewrite run_keeps_localStorage by exact Htrace.
    subst w. destruct supportsMediaDevices; reflexivity. }
  split; [subst w; destruct supportsMediaDevices; reflexivity|].
  split; [exact Hstore | rewrite Hstore; reflexivity].
Qed.

Lemma screenInput_selection_not_persisted_witness :
  by_type
    (currentDeviceId
       (handler (newMediaDevicesHandler webMediaDeviceType true screenStorage)))
    screenInput
  = JString "screen:7" /\
  localStorage
    (run webMediaDeviceType
       (newMediaDevicesHandler webMediaDeviceType true screenStorage)
       screenSelections)
  = screenStorage /\
  loadValue
    (localStorage
       (run webMediaDeviceType
          (newMediaDevicesHandler webMediaDeviceType true screenStorage)
          screenSelections))
    "screeninput"
  = JString "screen:7".
Proof.
  assert (H : Forall selectsOnlyScreenInput screenSelections).
  { unfold screenSelections. repeat constructor. }
  exact (screenInput_selection_not_persisted webMediaDeviceType true
           screenStorage screenSelections H).
Defined.

(** The subscriptions at work: once the first refresh is fulfilled, the
    microphone selected is stored under the key of audioInput and the
    screen source selected is stored nowhere. *)
Example selections_run :
  localStorage
    (run webMediaDeviceType (newMediaDevicesHandler webMediaDeviceType true ∅)
       selections)
  = {[ "audioinput" := "mic2" ]} /\
  currentDeviceId
    (handler (run webMediaDeviceType
                (newMediaDevicesHandler webMediaDeviceType true ∅) selections))
  = mkPerType (JString "mic2") JUndefined (JString "screen:0") JUndefined.
Proof. split; reflexivity. Qed.

(** * Further properties of the handler *)

(** ** What a refresh stores *)

Lemma sortDevice_fold_sound (MT : MediaDeviceTypeT)
    (mediaDevices : list MediaDeviceInfo) :
  forall acc : Sorted,
    (forall d, d ∈ audioInputDevices (fold_left (sortDevice MT) mediaDevices acc) ->
       d ∈ audioInputDevices acc \/
       (d ∈ mediaDevices /\ kind d = JString (AUDIO_INPUT MT))) /\
    (forall d, d ∈ audioOutputDevices (fold_left (sortDevice MT) mediaDevices acc) ->
       d ∈ audioOutputDevices acc \/
       (d ∈ mediaDevices /\ kind d = JString (AUDIO_OUTPUT MT))) /\
    (forall d, d ∈ videoInputDevices (fold_left (sortDevice MT) mediaDevices acc) ->
       d ∈ videoInputDevices acc \/
       (d ∈ mediaDevices /\ kind d = JString (VIDEO_INPUT MT))) /\
    length (audioInputDevices (fold_left (sortDevice MT) mediaDevices acc))
    + length (audioOutputDevices (fold_left (sortDevice MT) mediaDevices acc))
    + length (videoInputDevices (fold_left (sortDevice MT) mediaDevices acc))
    <= length (audioInputDevices acc) + length (audioOutputDevices acc)
       + length (videoInputDevices acc) + length mediaDevices.
Proof.
  induction mediaDevices as [|a l IH]; intros acc.
  - simpl. repeat split; auto. lia.
  - simpl. destruct (IH (sortDevice MT acc a)) as (Hi & Ho & Hv & Hlen).
    clear IH. unfold sortDevice in *.
    destruct (strict_eq (kind a) (JString (AUDIO_INPUT MT))) eqn:Ei;
      [apply strict_eq_true in Ei
      |destruct (strict_eq (kind a) (JString (AUDIO_OUTPUT MT))) eqn:Eo;
       [apply strict_eq_true in Eo
       |destruct (strict_eq (kind a) (JString (VIDEO_INPUT MT))) eqn:Ev;
        [apply strict_eq_true in Ev|]]];
      simpl in *; rewrite ?length_app in Hlen; simpl in Hlen;
      (split; [|split; [|split; [|lia]]]);
      intros d Hd;
      [apply Hi in Hd | apply Ho in Hd | apply Hv in Hd
      |apply Hi in Hd | apply Ho in Hd | apply Hv in Hd
      |apply Hi in Hd | apply Ho in Hd | apply Hv in Hd
      |apply Hi in Hd | apply Ho in Hd | apply Hv in Hd];
      (destruct Hd as [Hd | [Hd Hk]];
       [ first
           [ left; exact Hd
           | apply elem_of_app in Hd as [Hd | Hd];
             [ left; exact Hd
             | apply list_elem_of_singleton in Hd; subst d;
               right; split; [left | assumption] ] ]
       | right; split; [right; exact Hd | exact Hk] ]).
Qed.

(** X1. After a fulfilled refresh every device stored under audioInput,
    audioOutput or videoInput is a device of the enumeration that reports
    the kind of the category, and the three lists together hold no more
    devices than the enumeration has; this needs no assumption on the
    kinds. *)
Theorem refresh_stores_only_enumerated (MT : MediaDeviceTypeT)
    (this : MediaDevicesHandler) (mediaDevices : list MediaDeviceInfo) :
  (forall d,
     d ∈ by_type (availableDevices
                    (fst (refreshMediaDevices MT (Fulfilled (Some mediaDevices)) this)))
           audioInput ->
     d ∈ mediaDevices /\ kind d = JString (AUDIO_INPUT MT)) /\
  (forall d,
     d ∈ by_type (availableDevices
                    (fst (refreshMediaDevices MT (Fulfilled (Some mediaDevices)) this)))
           audioOutput ->
     d ∈ mediaDevices /\ kind d = JString (AUDIO_OUTPUT MT)) /\
  (forall d,
     d ∈ by_type (availableDevices
                    (fst (refreshMediaDevices MT (Fulfilled (Some mediaDevices)) this)))
           videoInput ->
     d ∈ mediaDevices /\ kind d = JString (VIDEO_INPUT MT)) /\
  length (by_type (availableDevices
                     (fst (refreshMediaDevices MT (Fulfilled (Some mediaDevices)) this)))
            audioInput)
  + length (by_type (availableDevices
                       (fst (refreshMediaDevices MT (Fulfilled (Some mediaDevices)) this)))
              audioOutput)
  + length (by_type (availableDevices
                       (fst (refreshMediaDevices MT (Fulfilled (Some mediaDevices)) this)))
              videoInput)
  <= length mediaDevices.
Proof.
  rewrite refreshMediaDevices_fulfilled. simpl.
  destruct (sortDevice_fold_sound MT mediaDevices (mkSorted [] [] []))
    as (Hi & Ho & Hv & Hlen).
  simpl in *.
  split; [|split; [|split; [|lia]]]; intros d Hd;
    [apply Hi in Hd | apply Ho in Hd | apply Hv in Hd];
    destruct Hd as [Hd | Hd]; try exact Hd; inversion Hd.
Qed.

Lemma refresh_stores_only_enumerated_witness :
  mic2 ∈ enumeration /\ kind mic2 = JString "audioinput".
Proof.
  apply (proj1 (refresh_stores_only_enumerated webMediaDeviceType knownBefore
                  enumeration) mic2).
  simpl. left.
Defined.

(** X2. A fulfilled refresh leaves the handler it would have left had no
    earlier refresh, however settled, run before it. *)
Theorem refresh_absorbs_earlier_refresh (MT : MediaDeviceTypeT)
    (this : MediaDevicesHandler)
    (earlier : Settled (option (list MediaDeviceInfo)))
    (mediaDevices : list MediaDeviceInfo) :
  fst (refreshMediaDevices MT (Fulfilled (Some mediaDevices))
         (fst (refreshMediaDevices MT earlier this)))
  = fst (refreshMediaDevices MT (Fulfilled (Some mediaDevices)) this).
Proof.
  rewrite !refreshMediaDevices_fulfilled.
  destruct earlier as [[l|]|err]; reflexivity.
Qed.

(** X4. Refreshing and listing the screen sources do not disturb each
    other: in either order, and however each of them settles, they leave
    the same handler. *)
Theorem refresh_and_getScreenSources_commute (MT : MediaDeviceTypeT)
    (this : MediaDevicesHandler)
    (enumerated : Settled (option (list MediaDeviceInfo)))
    (desktopCapturer : option CapturerReply) :
  fst (refreshMediaDevices MT enumerated
         (fst (getScreenSources desktopCapturer this)))
  = fst (getScreenSources desktopCapturer
           (fst (refreshMediaDevices MT enumerated this))).
Proof.
  destruct enumerated as [[l|]|err];
    destruct desktopCapturer as [[[e|] sources]|]; reflexivity.
Qed.

(** ** Devices that come and go *)

(** The lists a fulfilled refresh leaves, when the three kinds are
    different strings. *)
Lemma refreshMediaDevices_lists (MT : MediaDeviceTypeT)
    (this : MediaDevicesHandler) (mediaDevices : list MediaDeviceInfo) :
  AUDIO_INPUT MT <> AUDIO_OUTPUT MT ->
  AUDIO_INPUT MT <> VIDEO_INPUT MT ->
  AUDIO_OUTPUT MT <> VIDEO_INPUT MT ->
  fst (refreshMediaDevices MT (Fulfilled (Some mediaDevices)) this)
  = {| availableDevices :=
         {| at_audioInput := devicesOfKind (AUDIO_INPUT MT) mediaDevices;
            at_audioOutput := devicesOfKind (AUDIO_OUTPUT MT) mediaDevices;
            at_screenInput := at_screenInput (availableDevices this);
            at_videoInput := devicesOfKind (VIDEO_INPUT MT) mediaDevices |};
       currentDeviceId := currentDeviceId this |}.
Proof.
  intros Hio Hiv Hov. rewrite refreshMediaDevices_fulfilled.
  rewrite (sortDevice_fold MT mediaDevices Hio Hiv Hov). reflexivity.
Qed.

Lemma refreshed_list (MT : MediaDeviceTypeT)
    (this : MediaDevicesHandler) (mediaDevices : list MediaDeviceInfo)
    (deviceType : DeviceTypes) :
  AUDIO_INPUT MT <> AUDIO_OUTPUT MT ->
  AUDIO_INPUT MT <> VIDEO_INPUT MT ->
  AUDIO_OUTPUT MT <> VIDEO_INPUT MT ->
  deviceType <> screenInput ->
  by_type (availableDevices
             (fst (refreshMediaDevices MT (Fulfilled (Some mediaDevices)) this)))
    deviceType
  = devicesOfKind (storageKey MT deviceType) mediaDevices.
Proof.
  intros Hio Hiv Hov Hc. rewrite refreshMediaDevices_lists by assumption.
  destruct deviceType; try reflexivity. contradiction.
Qed.

Lemma refresh_keeps_currentDeviceId (MT : MediaDeviceTypeT)
    (this : MediaDevicesHandler)
    (enumerated : Settled (option (list MediaDeviceInfo))) :
  currentDeviceId (fst (refreshMediaDevices MT enumerated this))
  = currentDeviceId this.
Proof. destruct enumerated as [[l|]|err]; reflexivity. Qed.

Lemma resolves_to_desired (this : MediaDevicesHandler) (deviceType : DeviceTypes) :
  by_type (currentDeviceId this) deviceType
    ∈ deviceIdentifier <$> by_type (availableDevices this) deviceType ->
  getCurrentAvailableDeviceId this deviceType
  = by_type (currentDeviceId this) deviceType.
Proof.
  intros Hin. unfold getCurrentAvailableDeviceId.
  destruct (Nat.eqb (length (by_type (availableDevices this) deviceType)) 0) eqn:Hlen.
  - apply length_eqb_0 in Hlen. rewrite Hlen in Hin. inversion Hin.
  - apply isAvailable_is_Some in Hin. destruct Hin as [d Hd]. rewrite Hd.
    reflexivity.
Qed.

Lemma resolves_to_default (this : MediaDevicesHandler) (deviceType : DeviceTypes) :
  by_type (availableDevices this) deviceType <> [] ->
  by_type (currentDeviceId this) deviceType
    ∉ deviceIdentifier <$> by_type (availableDevices this) deviceType ->
  getCurrentAvailableDeviceId this deviceType
  = JString (by_type DEFAULT_DEVICE deviceType).
Proof.
  intros Hne Hnotin. unfold getCurrentAvailableDeviceId.
  destruct (Nat.eqb (length (by_type (availableDevices this) deviceType)) 0) eqn:Hlen.
  - apply length_eqb_0 in Hlen. contradiction.
  - destruct (isAvailable _ _) as [d|] eqn:Hfind; [|reflexivity].
    exfalso. apply Hnotin. apply isAvailable_is_Some. eauto.
Qed.

(** X5. The desired id outlives the device.  When a refresh reports
    devices of a category but not the desired one, the category resolves
    to its default while the desired id is kept; when a later refresh
    reports the desired device again, the category resolves to the
    desired id again.  The three kinds are taken to be different
    strings. *)
Theorem desired_device_resolves_when_back (MT : MediaDeviceTypeT)
    (this : MediaDevicesHandler) (gone back : list MediaDeviceInfo)
    (deviceType : DeviceTypes) :
  AUDIO_INPUT MT <> AUDIO_OUTPUT MT ->
  AUDIO_INPUT MT <> VIDEO_INPUT MT ->
  AUDIO_OUTPUT MT <> VIDEO_INPUT MT ->
  deviceType <> screenInput ->
  devicesOfKind (storageKey MT deviceType) gone <> [] ->
  by_type (currentDeviceId this) deviceType
    ∉ deviceIdentifier <$> devicesOfKind (storageKey MT deviceType) gone ->
  by_type (currentDeviceId this) deviceType
    ∈ deviceIdentifier <$> devicesOfKind (storageKey MT deviceType) back ->
  getCurrentAvailableDeviceId
    (fst (refreshMediaDevices MT (Fulfilled (Some gone)) this)) deviceType
  = JString (by_type DEFAULT_DEVICE deviceType) /\
  by_type (currentDeviceId
             (fst (refreshMediaDevices MT (Fulfilled (Some gone)) this)))
    deviceType
  = by_type (currentDeviceId this) deviceType /\
  getCurrentAvailableDeviceId
    (fst (refreshMediaDevices MT (Fulfilled (Some back))
            (fst (refreshMediaDevices MT (Fulfilled (Some gone)) this))))
    deviceType
  = by_type (currentDeviceId this) deviceType.
Proof.
  intros Hio Hiv Hov Hc Hsome Hgone Hback.
  split; [|split].
  - apply resolves_to_default;
      rewrite ?refresh_keeps_currentDeviceId, refreshed_list by assumption;
      assumption.
  - rewrite refresh_keeps_currentDeviceId. reflexivity.
  - rewrite <- (refresh_keeps_currentDeviceId MT this (Fulfilled (Some gone))).
    rewrite <- (refresh_keeps_currentDeviceId MT
                  (fst (refreshMediaDevices MT (Fulfilled (Some gone)) this))
                  (Fulfilled (Some back))).
    apply resolves_to_desired.
    rewrite !refresh_keeps_currentDeviceId, refreshed_list by assumption.
    exact Hback.
Qed.

Lemma desired_device_resolves_when_back_witness :
  getCurrentAvailableDeviceId
    (fst (refreshMediaDevices webMediaDeviceType (Fulfilled (Some unplugged))
            knownBefore)) audioInput
  = JString "default" /\
  by_type (currentDeviceId
             (fst (refreshMediaDevices webMediaDeviceType
                     (Fulfilled (Some unplugged)) knownBefore)))
    audioInput
  = JString "mic1" /\
  getCurrentAvailableDeviceId
    (fst (refreshMediaDevices webMediaDeviceType (Fulfilled (Some replugged))
            (fst (refreshMediaDevices webMediaDeviceType
                    (Fulfilled (Some unplugged)) knownBefore))))
    audioInput
  = JString "mic1".
Proof.
  apply (desired_device_resolves_when_back webMediaDeviceType knownBefore
           unplugged replugged audioInput); simpl; try discriminate.
  - intros H. apply list_elem_of_singleton in H. discriminate H.
  - right. left.
Defined.

(** X6. After a fulfilled refresh, a category other than screenInput is
    supported exactly when the enumeration has a device of its kind, and
    a category without such a device resolves to the empty string
    whatever id is desired.  The three kinds are taken to be different
    strings. *)
Theorem deviceSupport_after_refresh (MT : MediaDeviceTypeT)
    (this : MediaDevicesHandler) (mediaDevices : list MediaDeviceInfo)
    (deviceType : DeviceTypes) :
  AUDIO_INPUT MT <> AUDIO_OUTPUT MT ->
  AUDIO_INPUT MT <> VIDEO_INPUT MT ->
  AUDIO_OUTPUT MT <> VIDEO_INPUT MT ->
  deviceType <> screenInput ->
  (deviceSupport (fst (refreshMediaDevices MT (Fulfilled (Some mediaDevices)) this))
     deviceType = true
   <-> exists d, d ∈ mediaDevices /\ kind d = JString (storageKey MT deviceType)) /\
  (deviceSupport (fst (refreshMediaDevices MT (Fulfilled (Some mediaDevices)) this))
     deviceType = false ->
   getCurrentAvailableDeviceId
     (fst (refreshMediaDevices MT (Fulfilled (Some mediaDevices)) this)) deviceType
   = JString EmptyString).
Proof.
  intros Hio Hiv Hov Hc.
  unfold deviceSupport, getCurrentAvailableDeviceId.
  rewrite refreshed_list by assumption.
  split.
  - rewrite negb_true_iff. split.
    + intros Hlen.
      destruct (devicesOfKind (storageKey MT deviceType) mediaDevices)
        as [|d l] eqn:Hk; [discriminate Hlen|].
      assert (Hd : d ∈ devicesOfKind (storageKey MT deviceType) mediaDevices)
        by (rewrite Hk; left).
      unfold devicesOfKind in Hd. apply list_elem_of_filter in Hd as [Hkind Hd].
      exists d. split; assumption.
    + intros (d & Hd & Hkind).
      assert (Hin : d ∈ devicesOfKind (storageKey MT deviceType) mediaDevices).
      { unfold devicesOfKind. apply list_elem_of_filter. split; assumption. }
      destruct (devicesOfKind (storageKey MT deviceType) mediaDevices);
        [inversion Hin | reflexivity].
  - rewrite negb_false_iff. intros ->. reflexivity.
Qed.

Lemma deviceSupport_after_refresh_witness :
  deviceSupport
    (fst (refreshMediaDevices webMediaDeviceType (Fulfilled (Some unplugged))
            knownBefore)) audioOutput = false /\
  getCurrentAvailableDeviceId
    (fst (refreshMediaDevices webMediaDeviceType (Fulfilled (Some unplugged))
            knownBefore)) audioOutput
  = JString EmptyString.
Proof.
  split; [reflexivity|].
  apply (proj2 (deviceSupport_after_refresh webMediaDeviceType knownBefore
                  unplugged audioOutput
                  ltac:(simpl; discriminate) ltac:(simpl; discriminate)
                  ltac:(simpl; discriminate) ltac:(discriminate))).
  reflexivity.
Defined.

(** ** Who writes the desired ids and the storage *)

Lemma step_selectsNothing (MT : MediaDeviceTypeT) (w : World) (e : Event) :
  selectsNothing e ->
  currentDeviceId (handler (step MT w e)) = currentDeviceId (handler w) /\
  localStorage (step MT w e) = localStorage w.
Proof.
  destruct e as [| |request enumerated|deviceType v|cap]; simpl; intros H.
  - split; reflexivity.
  - destruct (subscribedToDevices w); split; reflexivity.
  - unfold settleEnumeration. destruct (inFlight w !! request); [|split; reflexivity].
    pose proof (refresh_keeps_currentDeviceId MT (handler w) enumerated) as Hk.
    destruct (refreshMediaDevices MT enumerated (handler w)). split; [exact Hk|reflexivity].
  - contradiction.
  - split; [|reflexivity].
    destruct cap as [[[err|] sources]|]; reflexivity.
Qed.

Lemma run_selectsNothing (MT : MediaDeviceTypeT) (trace : list Event) :
  Forall selectsNothing trace ->
  forall w,
    currentDeviceId (handler (run MT w trace)) = currentDeviceId (handler w) /\
    localStorage (run MT w trace) = localStorage w.
Proof.
  induction 1 as [|e trace He _ IH]; intros w; [split; reflexivity|].
  unfold run in *. simpl.
  destruct (IH (step MT w e)) as [Hc Hs].
  destruct (step_selectsNothing MT w e He) as [Hc' Hs'].
  split; congruence.
Qed.

(** X3. Only a selection writes the desired ids and the storage: after
    any course of refreshes, device changes, settled enumerations and
    requests for the screen sources, the desired id of every category and
    the storage are what they were. *)
Theorem only_selections_write_desired_ids (MT : MediaDeviceTypeT) (w : World)
    (trace : list Event) :
  Forall selectsNothing trace ->
  currentDeviceId (handler (run MT w trace)) = currentDeviceId (handler w) /\
  localStorage (run MT w trace) = localStorage w.
Proof. intros H. apply run_selectsNothing. exact H. Qed.

Lemma only_selections_write_desired_ids_witness :
  currentDeviceId
    (handler (run webMediaDeviceType
                (newMediaDevicesHandler webMediaDeviceType true screenStorage)
                outOfOrder))
  = currentDeviceId
      (handler (newMediaDevicesHandler webMediaDeviceType true screenStorage)) /\
  localStorage
    (run webMediaDeviceType
       (newMediaDevicesHandler webMediaDeviceType true screenStorage) outOfOrder)
  = localStorage (newMediaDevicesHandler webMediaDeviceType true screenStorage).
Proof.
  apply (only_selections_write_desired_ids webMediaDeviceType
           (newMediaDevicesHandler webMediaDeviceType true screenStorage)
           outOfOrder).
  unfold outOfOrder. repeat constructor.
Defined.

(** ** When the subscriptions are set up *)

Lemma step_unsubscribedForGood (MT : MediaDeviceTypeT) (w : World) (e : Event) :
  unsubscribedForGood w ->
  unsubscribedForGood (step MT w e) /\ localStorage (step MT w e) = localStorage w.
Proof.
  intros (Ho & Hd & Hf).
  destruct e as [| |request enumerated|deviceType v|cap]; simpl.
  - split; [|reflexivity]. split; [exact Ho|]. split; [exact Hd|].
    simpl. intros request. rewrite lookup_insert.
    case_decide; [discriminate | apply Hf].
  - rewrite Hd. split; [|reflexivity]. split; [exact Ho|]. split; [exact Hd|exact Hf].
  - unfold settleEnumeration.
    destruct (inFlight w !! request) as [initial|] eqn:Hlook;
      [|split; [split; [exact Ho|]; split; [exact Hd|exact Hf] | reflexivity]].
    assert (initial = false) as ->.
    { destruct initial; [|reflexivity]. exfalso. apply (Hf request). exact Hlook. }
    destruct (refreshMediaDevices MT enumerated (handler w)) as [this result].
    split; [|reflexivity]. unfold unsubscribedForGood. simpl.
    rewrite Ho, Hd. destruct result; simpl; (split; [reflexivity|]);
      (split; [reflexivity|]); intros r; rewrite lookup_delete;
      case_decide; try discriminate; apply Hf.
  - unfold selectDevice. destruct (strict_eq _ _).
    + split; [|reflexivity]. split; [exact Ho|]. split; [exact Hd|exact Hf].
    + simpl. rewrite Ho. split; [|reflexivity].
      split; [reflexivity|]. split; [exact Hd|exact Hf].
  - split; [|reflexivity]. split; [exact Ho|]. split; [exact Hd|exact Hf].
Qed.

Lemma run_unsubscribedForGood (MT : MediaDeviceTypeT) (trace : list Event) :
  forall w,
    unsubscribedForGood w ->
    unsubscribedForGood (run MT w trace) /\
    localStorage (run MT w trace) = localStorage w.
Proof.
  induction trace as [|e trace IH]; intros w Hw; [split; [exact Hw|reflexivity]|].
  unfold run in *. simpl.
  destruct (step_unsubscribedForGood MT w e Hw) as [Hw' Hs'].
  destruct (IH (step MT w e) Hw') as [Hw'' Hs''].
  split; [exact Hw''|congruence].
Qed.

(** X7. When the enumeration of the constructor's refresh is rejected or
    yields no list, the subscriptions are never set up: whatever happens
    afterwards, the handler subscribes neither to its observables nor to
    device changes, and the storage stays the one it was constructed
    on. *)
Theorem failed_first_refresh_never_subscribes (MT : MediaDeviceTypeT)
    (storage : gmap string string)
    (enumerated : Settled (option (list MediaDeviceInfo)))
    (trace : list Event) :
  failsToEnumerate enumerated ->
  subscribedToObservables
    (run MT (newMediaDevicesHandler MT true storage)
       (EnumerationSettled 0 enumerated :: trace)) = false /\
  subscribedToDevices
    (run MT (newMediaDevicesHandler MT true storage)
       (EnumerationSettled 0 enumerated :: trace)) = false /\
  localStorage
    (run MT (newMediaDevicesHandler MT true storage)
       (EnumerationSettled 0 enumerated :: trace)) = storage.
Proof.
  intros Hfail.
  assert (Hw : unsubscribedForGood
                 (step MT (newMediaDevicesHandler MT true storage)
                    (EnumerationSettled 0 enumerated)) /\
               localStorage
                 (step MT (newMediaDevicesHandler MT true storage)
                    (EnumerationSettled 0 enumerated)) = storage).
  { simpl. unfold settleEnumeration. simpl. rewrite lookup_insert_eq.
    destruct enumerated as [[l|]|err]; [contradiction| |];
      (split; [|reflexivity]); unfold unsubscribedForGood; simpl;
      (split; [reflexivity|]); (split; [reflexivity|]);
      intros r; rewrite lookup_delete; case_decide; try discriminate;
      rewrite lookup_insert_ne by assumption; rewrite lookup_empty; discriminate. }
  destruct Hw as [Hw Hs].
  change (run MT (newMediaDevicesHandler MT true storage)
            (EnumerationSettled 0 enumerated :: trace))
    with (run MT (step MT (newMediaDevicesHandler MT true storage)
                    (EnumerationSettled 0 enumerated)) trace).
  destruct (run_unsubscribedForGood MT trace _ Hw) as [(Ho & Hd & _) Hs'].
  split; [exact Ho|]. split; [exact Hd|]. congruence.
Qed.

Lemma failed_first_refresh_never_subscribes_witness :
  subscribedToObservables
    (run webMediaDeviceType (newMediaDevicesHandler webMediaDeviceType true ∅)
       (EnumerationSettled 0 (Fulfilled None) :: selections)) = false /\
  subscribedToDevices
    (run webMediaDeviceType (newMediaDevicesHandler webMediaDeviceType true ∅)
       (EnumerationSettled 0 (Fulfilled None) :: selections)) = false /\
  localStorage
    (run webMediaDeviceType (newMediaDevicesHandler webMediaDeviceType true ∅)
       (EnumerationSettled 0 (Fulfilled None) :: selections)) = ∅.
Proof.
  apply (failed_first_refresh_never_subscribes webMediaDeviceType ∅
           (Fulfilled None) selections).
  exact I.
Defined.

(** X8. Where the browser does not support media devices, the constructor
    starts no refresh and the subscriptions are never set up: whatever
    happens afterwards, no selection reaches the storage and no device
    change is listened to. *)
Theorem unsupported_browser_never_subscribes (MT : MediaDeviceTypeT)
    (storage : gmap string string) (trace : list Event) :
  inFlight (newMediaDevicesHandler MT false storage) = ∅ /\
  subscribedToObservables
    (run MT (newMediaDevicesHandler MT false storage) trace) = false /\
  subscribedToDevices
    (run MT (newMediaDevicesHandler MT false storage) trace) = false /\
  localStorage (run MT (newMediaDevicesHandler MT false storage) trace) = storage.
Proof.
  split; [reflexivity|].
  assert (Hw : unsubscribedForGood (newMediaDevicesHandler MT false storage)).
  { unfold unsubscribedForGood. simpl. split; [reflexivity|]. split; [reflexivity|].
    intros r. rewrite lookup_empty. discriminate. }
  destruct (run_unsubscribedForGood MT trace _ Hw) as [(Ho & Hd & _) Hs].
  split; [exact Ho|]. split; [exact Hd|]. exact Hs.
Qed.

Lemma step_awaits_first (MT : MediaDeviceTypeT) (w : World) (e : Event) :
  notFirstSettlement e ->
  inFlight w !! 0 = Some true /\ 1 <= issued w ->
  inFlight (step MT w e) !! 0 = Some true /\ 1 <= issued (step MT w e).
Proof.
  intros He [Hf Hi].
  assert (Hcall : inFlight (callRefresh false w) !! 0 = Some true /\
                  1 <= issued (callRefresh false w)).
  { simpl. split; [|lia]. rewrite lookup_insert_ne by lia. exact Hf. }
  destruct e as [| |request enumerated|deviceType v|cap]; simpl.
  - exact Hcall.
  - destruct (subscribedToDevices w); [exact Hcall | split; assumption].
  - unfold settleEnumeration.
    destruct (inFlight w !! request) as [initial|] eqn:Hlook; [|split; assumption].
    destruct (refreshMediaDevices MT enumerated (handler w)). simpl.
    split; [|exact Hi]. rewrite lookup_delete_ne; [exact Hf|].
    destruct request; [contradiction | lia].
  - unfold selectDevice. destruct (strict_eq _ _); split; assumption.
  - split; assumption.
Qed.

Lemma run_awaits_first (MT : MediaDeviceTypeT) (trace : list Event) :
  Forall notFirstSettlement trace ->
  forall w,
    inFlight w !! 0 = Some true /\ 1 <= issued w ->
    inFlight (run MT w trace) !! 0 = Some true /\ 1 <= issued (run MT w trace).
Proof.
  induction 1 as [|e trace He _ IH]; intros w Hw; [exact Hw|].
  unfold run in *. simpl. apply IH. apply step_awaits_first; assumption.
Qed.

Lemma step_stays_subscribed (MT : MediaDeviceTypeT) (w : World) (e : Event) :
  subscribedToObservables w = true /\ subscribedToDevices w = true ->
  subscribedToObservables (step MT w e) = true /\
  subscribedToDevices (step MT w e) = true.
Proof.
  intros [Ho Hd].
  destruct e as [| |request enumerated|deviceType v|cap]; simpl.
  - split; assumption.
  - rewrite Hd. split; assumption.
  - unfold settleEnumeration.
    destruct (inFlight w !! request); [|split; assumption].
    destruct (refreshMediaDevices MT enumerated (handler w)). simpl.
    rewrite Ho, Hd. split; reflexivity.
  - unfold selectDevice. destruct (strict_eq _ _); split; assumption.
  - split; assumption.
Qed.

Lemma run_stays_subscribed (MT : MediaDeviceTypeT) (trace : list Event) :
  forall w,
    subscribedToObservables w = true /\ subscribedToDevices w = true ->
    subscribedToObservables (run MT w trace) = true /\
    subscribedToDevices (run MT w trace) = true.
Proof.
  induction trace as [|e trace IH]; intros w Hw; [exact Hw|].
  unfold run in *. simpl. apply IH. apply step_stays_subscribed. exact Hw.
Qed.

(** X9. In a supporting browser the subscriptions are set up when the
    enumeration of the constructor's refresh is fulfilled with a list,
    and they stay: whatever happens before that enumeration settles and
    whatever happens after, the handler ends subscribed to its
    observables and to device changes. *)
Theorem first_refresh_subscribes (MT : MediaDeviceTypeT)
    (storage : gmap string string) (before after : list Event)
    (mediaDevices : list MediaDeviceInfo) :
  Forall notFirstSettlement before ->
  subscribedToObservables
    (run MT (newMediaDevicesHandler MT true storage)
       (before ++ EnumerationSettled 0 (Fulfilled (Some mediaDevices)) :: after))
  = true /\
  subscribedToDevices
    (run MT (newMediaDevicesHandler MT true storage)
       (before ++ EnumerationSettled 0 (Fulfilled (Some mediaDevices)) :: after))
  = true.
Proof.
  intros Hbefore.
  destruct (run_awaits_first MT before Hbefore
              (newMediaDevicesHandler MT true storage)) as [Hf _].
  { simpl. split; [apply lookup_insert_eq | lia]. }
  unfold run in *. rewrite fold_left_app.
  set (w := fold_left (step MT) before (newMediaDevicesHandler MT true storage)) in *.
  cbn [fold_left].
  apply (run_stays_subscribed MT after).
  cbn [step]. unfold settleEnumeration. rewrite Hf.
  rewrite refreshMediaDevices_fulfilled. cbn [subscribedToObservables subscribedToDevices].
  rewrite !orb_true_r. split; reflexivity.
Qed.

Lemma first_refresh_subscribes_witness :
  subscribedToObservables
    (run webMediaDeviceType (newMediaDevicesHandler webMediaDeviceType true ∅)
       ([RefreshCalled; DeviceSelected audioInput "mic1"]
        ++ EnumerationSettled 0 (Fulfilled (Some enumeration)) :: screenSelections))
  = true /\
  subscribedToDevices
    (run webMediaDeviceType (newMediaDevicesHandler webMediaDeviceType true ∅)
       ([RefreshCalled; DeviceSelected audioInput "mic1"]
        ++ EnumerationSettled 0 (Fulfilled (Some enumeration)) :: screenSelections))
  = true.
Proof.
  apply (first_refresh_subscribes webMediaDeviceType ∅
           [RefreshCalled; DeviceSelected audioInput "mic1"] screenSelections
           enumeration).
  repeat constructor.
Defined.

(** ** Selections and restarts *)

(** X10. Once the handler is subscribed, a selection for audioInput,
    audioOutput or videoInput of an id other than the one held is the
    desired id at once and survives a restart: as long as no other
    selection follows, a handler constructed on the storage left behind
    desires the selected id for the category. *)
Theorem selection_survives_restart (MT : MediaDeviceTypeT) (w : World)
    (deviceType : DeviceTypes) (mediaDeviceId : string) (trace : list Event) :
  subscribedToObservables w = true ->
  deviceType <> screenInput ->
  by_type (currentDeviceId (handler w)) deviceType <> JString mediaDeviceId ->
  Forall selectsNothing trace ->
  by_type
    (currentDeviceId
       (handler (run MT w (DeviceSelected deviceType mediaDeviceId :: trace))))
    deviceType
  = JString mediaDeviceId /\
  by_type
    (currentDeviceId
       (construct MT
          (localStorage
             (run MT w (DeviceSelected deviceType mediaDeviceId :: trace)))))
    deviceType
  = JString mediaDeviceId.
Proof.
  intros Hsub Hc Hheld Htrace.
  change (run MT w (DeviceSelected deviceType mediaDeviceId :: trace))
    with (run MT (selectDevice MT deviceType mediaDeviceId w) trace).
  destruct (run_selectsNothing MT trace Htrace
              (selectDevice MT deviceType mediaDeviceId w)) as [Hids Hstore].
  rewrite Hids, Hstore. unfold selectDevice.
  apply strict_eq_false in Hheld. rewrite Hheld. simpl. rewrite Hsub.
  split; [apply by_type_with_type_eq|].
  destruct deviceType; try contradiction; simpl; unfold loadValue, storeValue;
    rewrite lookup_insert_eq; reflexivity.
Qed.

Lemma selection_survives_restart_witness :
  by_type
    (currentDeviceId
       (handler (run webMediaDeviceType
                   (mkWorld knownBefore ∅ true true ∅ 1)
                   (DeviceSelected audioInput "mic2" :: outOfOrder))))
    audioInput
  = JString "mic2" /\
  by_type
    (currentDeviceId
       (construct webMediaDeviceType
          (localStorage
             (run webMediaDeviceType
                (mkWorld knownBefore ∅ true true ∅ 1)
                (DeviceSelected audioInput "mic2" :: outOfOrder)))))
    audioInput
  = JString "mic2".
Proof.
  apply (selection_survives_restart webMediaDeviceType
           (mkWorld knownBefore ∅ true true ∅ 1) audioInput "mic2" outOfOrder).
  - reflexivity.
  - discriminate.
  - simpl. discriminate.
  - unfold outOfOrder. repeat constructor.
Defined.

Lemma step_reselects (MT : MediaDeviceTypeT) (deviceType : DeviceTypes)
    (mediaDeviceId : string) (w : World) (e : Event) :
  reselects deviceType mediaDeviceId e ->
  by_type (currentDeviceId (handler w)) deviceType = JString mediaDeviceId ->
  by_type (currentDeviceId (handler (step MT w e))) deviceType
  = JString mediaDeviceId /\
  localStorage (step MT w e) = localStorage w.
Proof.
  intros He Hheld.
  destruct e as [| |request enumerated|deviceType' v|cap].
  - destruct (step_selectsNothing MT w RefreshCalled I) as [Hc Hs].
    rewrite Hc, Hs. split; [exact Hheld | reflexivity].
  - destruct (step_selectsNothing MT w DeviceChange I) as [Hc Hs].
    rewrite Hc, Hs. split; [exact Hheld | reflexivity].
  - destruct (step_selectsNothing MT w (EnumerationSettled request enumerated) I)
      as [Hc Hs].
    rewrite Hc, Hs. split; [exact Hheld | reflexivity].
  - destruct He as [-> ->]. cbn [step]. unfold selectDevice. rewrite Hheld.
    assert (Hsame : strict_eq (JString mediaDeviceId) (JString mediaDeviceId) = true)
      by (apply strict_eq_true; reflexivity).
    rewrite Hsame. split; [exact Hheld | reflexivity].
  - destruct (step_selectsNothing MT w (ScreenSourcesRequested cap) I) as [Hc Hs].
    rewrite Hc, Hs. split; [exact Hheld | reflexivity].
Qed.

Lemma run_reselects (MT : MediaDeviceTypeT) (deviceType : DeviceTypes)
    (mediaDeviceId : string) (trace : list Event) :
  Forall (reselects deviceType mediaDeviceId) trace ->
  forall w,
    by_type (currentDeviceId (handler w)) deviceType = JString mediaDeviceId ->
    by_type (currentDeviceId (handler (run MT w trace))) deviceType
    = JString mediaDeviceId /\
    localStorage (run MT w trace) = localStorage w.
Proof.
  induction 1 as [|e trace He _ IH]; intros w Hheld; [split; [exact Hheld|reflexivity]|].
  unfold run in *. cbn [fold_left].
  destruct (step_reselects MT deviceType mediaDeviceId w e He Hheld) as [Hheld' Hs'].
  destruct (IH (step MT w e) Hheld') as [Hheld'' Hs''].
  split; [exact Hheld''|congruence].
Qed.

Lemma selectDevice_unsubscribed (MT : MediaDeviceTypeT) (deviceType : DeviceTypes)
    (mediaDeviceId : string) (w : World) :
  subscribedToObservables w = false ->
  by_type (currentDeviceId (handler (selectDevice MT deviceType mediaDeviceId w)))
    deviceType = JString mediaDeviceId /\
  localStorage (selectDevice MT deviceType mediaDeviceId w) = localStorage w /\
  inFlight (selectDevice MT deviceType mediaDeviceId w) = inFlight w /\
  issued (selectDevice MT deviceType mediaDeviceId w) = issued w.
Proof.
  intros Hsub. unfold selectDevice.
  destruct (strict_eq (by_type (currentDeviceId (handler w)) deviceType)
              (JString mediaDeviceId)) eqn:E.
  - apply strict_eq_true in E. repeat split. exact E.
  - cbn [handler currentDeviceId localStorage inFlight issued]. rewrite Hsub.
    split; [apply by_type_with_type_eq|]. repeat split.
Qed.

(** X11. A selection made before the enumeration of the constructor's
    refresh is fulfilled is not stored, and selecting the same id again
    does not store it either, not even once the handler is subscribed:
    the observable holds the id already and notifies no one.  Over any
    later course of events in which the only selections are of that id
    for that category, the id stays desired and the storage stays the one
    the handler was constructed on, so that a restart loses the
    selection; and where that course of events has the first enumeration
    fulfilled with a list, the handler ends subscribed all the same. *)
Theorem selection_before_first_refresh_is_not_stored (MT : MediaDeviceTypeT)
    (storage : gmap string string) (deviceType : DeviceTypes)
    (mediaDeviceId : string) (trace : list Event) :
  Forall (reselects deviceType mediaDeviceId) trace ->
  by_type
    (currentDeviceId
       (handler
          (run MT (newMediaDevicesHandler MT true storage)
             (DeviceSelected deviceType mediaDeviceId :: trace))))
    deviceType
  = JString mediaDeviceId /\
  localStorage
    (run MT (newMediaDevicesHandler MT true storage)
       (DeviceSelected deviceType mediaDeviceId :: trace))
  = storage /\
  (forall before mediaDevices after,
     trace = before ++ EnumerationSettled 0 (Fulfilled (Some mediaDevices)) :: after ->
     Forall notFirstSettlement before ->
     subscribedToObservables
       (run MT (newMediaDevicesHandler MT true storage)
          (DeviceSelected deviceType mediaDeviceId :: trace))
     = true).
Proof.
  intros Htrace.
  change (run MT (newMediaDevicesHandler MT true storage)
            (DeviceSelected deviceType mediaDeviceId :: trace))
    with (run MT (selectDevice MT deviceType mediaDeviceId
                    (newMediaDevicesHandler MT true storage)) trace).
  destruct (selectDevice_unsubscribed MT deviceType mediaDeviceId
              (newMediaDevicesHandler MT true storage) eq_refl)
    as (Hheld & Hstore & Hfl & Hiss).
  set (w1 := selectDevice MT deviceType mediaDeviceId
               (newMediaDevicesHandler MT true storage)) in *.
  destruct (run_reselects MT deviceType mediaDeviceId trace Htrace w1 Hheld)
    as [Hheld' Hstore'].
  split; [exact Hheld'|]. split; [rewrite Hstore'; exact Hstore|].
  intros before mediaDevices after -> Hbefore.
  destruct (run_awaits_first MT before Hbefore w1) as [Hf _].
  { rewrite Hfl, Hiss. simpl. split; [apply lookup_insert_eq | lia]. }
  unfold run in *. rewrite fold_left_app.
  set (w := fold_left (step MT) before w1) in *.
  cbn [fold_left].
  apply (run_stays_subscribed MT after).
  cbn [step]. unfold settleEnumeration. rewrite Hf.
  rewrite refreshMediaDevices_fulfilled.
  cbn [subscribedToObservables subscribedToDevices].
  rewrite !orb_true_r. split; reflexivity.
Qed.

Lemma selection_before_first_refresh_is_not_stored_witness :
  by_type
    (currentDeviceId
       (handler
          (run webMediaDeviceType (newMediaDevicesHandler webMediaDeviceType true ∅)
             (DeviceSelected audioInput "mic2" :: reselection))))
    audioInput
  = JString "mic2" /\
  localStorage
    (run webMediaDeviceType (newMediaDevicesHandler webMediaDeviceType true ∅)
       (DeviceSelected audioInput "mic2" :: reselection))
  = ∅ /\
  subscribedToObservables
    (run webMediaDeviceType (newMediaDevicesHandler webMediaDeviceType true ∅)
       (DeviceSelected audioInput "mic2" :: reselection))
  = true.
Proof.
  assert (H : Forall (reselects audioInput "mic2") reselection).
  { unfold reselection. repeat constructor. }
  destruct (selection_before_first_refresh_is_not_stored webMediaDeviceType ∅
              audioInput "mic2" reselection H) as (Hheld & Hstore & Hsub).
  split; [exact Hheld|]. split; [exact Hstore|].
  apply (Hsub [RefreshCalled] [mic1; mic2]
           [DeviceSelected audioInput "mic2"; DeviceChange]).
  - reflexivity.
  - repeat constructor.
Defined.

(** * Properties of the image download *)

(** X12. [download] never rejects.  Its promise is fulfilled with the
    number [downloadBlob] returns exactly when the resource is set, its
    [load()] is fulfilled with a blob and [downloadBlob] returns for that
    blob and the file name, and then nothing is logged; in every other
    case it is fulfilled with nothing and one entry, 'Failed to download
    image' with the error caught, is added to the log. *)
Theorem download_never_rejects (Blob : Type)
    (downloadBlob : Blob -> option string -> MediumImage.Completion nat)
    (resource : option (Settled (option Blob))) (filename : option string)
    (log : list MediumImage.LogEntry) :
  (forall error,
     snd (MediumImage.download Blob downloadBlob resource filename log)
     <> Rejected error) /\
  (forall timer,
     snd (MediumImage.download Blob downloadBlob resource filename log)
     = Fulfilled (Some timer)
     <-> exists blob,
           resource = Some (Fulfilled (Some blob)) /\
           downloadBlob blob filename = MediumImage.Returns timer) /\
  (forall timer,
     snd (MediumImage.download Blob downloadBlob resource filename log)
     = Fulfilled (Some timer) ->
     fst (MediumImage.download Blob downloadBlob resource filename log) = log) /\
  (snd (MediumImage.download Blob downloadBlob resource filename log)
   = Fulfilled None ->
   exists error,
     fst (MediumImage.download Blob downloadBlob resource filename log)
     = log ++ [MediumImage.mkLogEntry "Failed to download image" error]).
Proof.
  unfold MediumImage.download, MediumImage.tryDownload.
  destruct resource as [[[blob|]|err]|]; simpl;
    try destruct (downloadBlob blob filename) as [n|exc] eqn:Hd; simpl;
    (split; [intros e; discriminate|]);
    (split; [intros timer; split;
               [intros H; try discriminate H; injection H as ->; eauto
               |intros (b & Hb & Hr); try discriminate Hb;
                injection Hb as <-; congruence]|]);
    (split; [intros timer H; try discriminate H; reflexivity|]);
    intros H; try discriminate H; eauto.
Qed.

Lemma download_never_rejects_witness :
  MediumImage.download nat (fun blob _ => MediumImage.Returns blob)
    (Some (Fulfilled None)) None []
  = ([MediumImage.mkLogEntry "Failed to download image"
        (mkJsError "Error" "No blob received.")],
     Fulfilled None) /\
  exists error,
    fst (MediumImage.download nat (fun blob _ => MediumImage.Returns blob)
           (Some (Fulfilled None)) None [])
    = [] ++ [MediumImage.mkLogEntry "Failed to download image" error].
Proof.
  split; [reflexivity|].
  apply (proj2 (proj2 (proj2 (download_never_rejects nat
                                (fun blob _ => MediumImage.Returns blob)
                                (Some (Fulfilled None)) None [])))).
  reflexivity.
Defined.

(** * Properties of the escaping for regular expressions *)

Section Escaping.

Import Stdlib.Strings.Ascii.

Lemma isSpecial_backslash (c : Ascii.ascii) :
  SanitizationUtil.isSpecial c = false -> Ascii.eqb c "\"%char = false.
Proof.
  intros H. destruct (Ascii.eqb c "\"%char) eqn:E; [|reflexivity].
  apply Ascii.eqb_eq in E. subst c. vm_compute in H. discriminate H.
Qed.

Lemma escapeRegex_length (s : string) :
  String.length (SanitizationUtil.escapeRegex s)
  = String.length s + SanitizationUtil.countSpecial s.
Proof.
  induction s as [|c rest IH]; [reflexivity|].
  cbn [SanitizationUtil.escapeRegex SanitizationUtil.countSpecial].
  destruct (SanitizationUtil.isSpecial c); cbn [String.length]; rewrite IH; lia.
Qed.

Lemma countSpecial_le (s : string) :
  SanitizationUtil.countSpecial s <= String.length s.
Proof.
  induction s as [|c rest IH]; [reflexivity|].
  cbn [SanitizationUtil.countSpecial String.length].
  destruct (SanitizationUtil.isSpecial c); lia.
Qed.

(** X13. The escaped string is longer than the string by the number of
    characters of the class in it: never shorter, and at most twice as
    long. *)
Theorem escapeRegex_length_bounds (s : string) :
  String.length (SanitizationUtil.escapeRegex s)
  = String.length s + SanitizationUtil.countSpecial s /\
  String.length s <= String.length (SanitizationUtil.escapeRegex s) /\
  String.length (SanitizationUtil.escapeRegex s) <= 2 * String.length s.
Proof.
  pose proof (escapeRegex_length s). pose proof (countSpecial_le s).
  repeat split; lia.
Qed.

(** X14. Escaping returns the string unchanged exactly when the string
    has no character of the class. *)
Theorem escapeRegex_unchanged_iff (s : string) :
  SanitizationUtil.escapeRegex s = s <-> SanitizationUtil.countSpecial s = 0.
Proof.
  split.
  - intros H. pose proof (escapeRegex_length s) as Hlen. rewrite H in Hlen. lia.
  - induction s as [|c rest IH]; [reflexivity|].
    cbn [SanitizationUtil.escapeRegex SanitizationUtil.countSpecial].
    destruct (SanitizationUtil.isSpecial c); [discriminate|].
    intros H. rewrite IH by exact H. reflexivity.
Qed.

(** X15. Escaping goes through concatenation: a string put together from
    parts is escaped by putting together the escaped parts. *)
Theorem escapeRegex_append (s1 s2 : string) :
  SanitizationUtil.escapeRegex (String.append s1 s2)
  = String.append (SanitizationUtil.escapeRegex s1)
                  (SanitizationUtil.escapeRegex s2).
Proof.
  induction s1 as [|c rest IH]; [reflexivity|].
  simpl. destruct (SanitizationUtil.isSpecial c); simpl; rewrite IH; reflexivity.
Qed.

(** X16. Escaping loses nothing: two strings with the same escaped form
    are the same string. *)
Theorem escapeRegex_injective (s1 s2 : string) :
  SanitizationUtil.escapeRegex s1 = SanitizationUtil.escapeRegex s2 -> s1 = s2.
Proof.
  revert s2. induction s1 as [|c1 r1 IH]; intros [|c2 r2] H;
    cbn [SanitizationUtil.escapeRegex] in H.
  - reflexivity.
  - destruct (SanitizationUtil.isSpecial c2); discriminate H.
  - destruct (SanitizationUtil.isSpecial c1); discriminate H.
  - destruct (SanitizationUtil.isSpecial c1) eqn:E1;
      destruct (SanitizationUtil.isSpecial c2) eqn:E2.
    + injection H as Hc Hr. subst c2. f_equal. apply IH. exact Hr.
    + injection H as Hc _. subst c2. vm_compute in E2. discriminate E2.
    + injection H as Hc _. subst c1. vm_compute in E1. discriminate E1.
    + injection H as Hc Hr. subst c2. f_equal. apply IH. exact Hr.
Qed.

Lemma escapeRegex_injective_witness : "a.b"%string = "a.b"%string.
Proof.
  apply (escapeRegex_injective "a.b" "a.b"). reflexivity.
Defined.

(** X17. In the escaped string no character of the class stands for
    itself: each one follows a backslash that escapes it, the backslash
    included. *)
Theorem escapeRegex_onlyLiterals (s : string) :
  SanitizationUtil.onlyLiterals (SanitizationUtil.escapeRegex s) = true.
Proof.
  induction s as [|c rest IH]; [reflexivity|].
  cbn [SanitizationUtil.escapeRegex].
  destruct (SanitizationUtil.isSpecial c) eqn:E.
  - cbn [SanitizationUtil.onlyLiterals]. rewrite E, IH. reflexivity.
  - cbn [SanitizationUtil.onlyLiterals].
    rewrite (isSpecial_backslash c E), E, IH. reflexivity.
Qed.

End Escaping.
